(** * Position reconciliation and risk rules: a shallow embedding

    The development follows the three source files that carry the logic:

    - [src/rules/max_contracts_rule.py]  (module [MaxContractsRule]),
    - [src/rules/rule_engine.py]         (modules [RuleEngine], [RiskEventHandler]),
    - [src/event_listener.py]            (module [EventListener]).

    Conventions of the embedding.

    - Event payloads are dynamically typed in the source; they are values of
      [pyval], with Python's truthiness, [dict.get], [getattr], subscript and
      [abs] written out, and a raised exception is the [None] of an [option].
    - Clock readings ([loop.time()]), the cache TTL and the suppression
      window are binary64 floats, as in the source: the listener subtracts
      and compares them, so they are values of [PrimFloat.float] with the
      IEEE 754 subtraction and comparison, and a float is truthy when it
      differs from zero.  A decimal literal denotes the nearest binary64
      value, as it does in Python.
    - Prices and P&L amounts are only formatted and tested against zero;
      they are read as the exact rational value [Q] of the float.
    - Mutable objects are records threaded through the functions.  Every
      function returns the list of log records it emits; the listener keeps
      the log and the list of broker calls it made as two trace fields.
    - Awaited broker calls are answered by an oracle passed as an argument. *)

From Stdlib Require Import Floats.PrimFloat.
From Stdlib Require Import ZArith QArith String List Bool Lia DecimalString.
From stdpp Require Import gmap strings.
Import ListNotations.

Set Warnings "-inexact-float".

Open Scope string_scope.
Open Scope Z_scope.
Open Scope list_scope.

(** ** Python values and the primitives the source applies to them *)

Module Py.

#[warnings="-register-all"] Inductive pyval : Type :=
| PNone
| PBool (b : bool)
| PInt (z : Z)
| PStr (s : string)
| PDict (items : list (string * pyval))
| PObj (attrs : list (string * pyval)).

(** [bool(v)]: [None], [False], [0], [""] and [{}] are falsy; a plain object
    is truthy. *)
Definition truthy (v : pyval) : bool :=
  match v with
  | PNone => false
  | PBool b => b
  | PInt z => negb (z =? 0)
  | PStr s => negb (String.eqb s "")
  | PDict items => match items with [] => false | _ :: _ => true end
  | PObj _ => true
  end.

Fixpoint assoc (k : string) (l : list (string * pyval)) : option pyval :=
  match l with
  | [] => None
  | (k', v) :: l' => if String.eqb k k' then Some v else assoc k l'
  end.

Definition isinstance_dict (v : pyval) : bool :=
  match v with PDict _ => true | _ => false end.

(** [k in v] for a dict [v]. *)
Definition contains (v : pyval) (k : string) : bool :=
  match v with
  | PDict items => match assoc k items with Some _ => true | None => false end
  | _ => false
  end.

(** [v.get(k, d)]: only dicts have the method; elsewhere AttributeError. *)
Definition dict_get (v : pyval) (k : string) (d : pyval) : option pyval :=
  match v with
  | PDict items => Some (match assoc k items with Some x => x | None => d end)
  | _ => None
  end.

(** [getattr(v, k, d)]: none of the names the source asks for is an attribute
    of [None], a bool, an int, a str or a dict. *)
Definition getattr (v : pyval) (k : string) (d : pyval) : pyval :=
  match v with
  | PObj attrs => match assoc k attrs with Some x => x | None => d end
  | _ => d
  end.

(** [hasattr(v, '__getitem__')]. *)
Definition has_getitem (v : pyval) : bool :=
  match v with PDict _ | PStr _ => true | _ => false end.

(** [v[k]] for a string key: KeyError on a missing key, TypeError on a str. *)
Definition subscript (v : pyval) (k : string) : option pyval :=
  match v with
  | PDict items => assoc k items
  | _ => None
  end.

(** [abs(v)]: TypeError unless [v] is a number ([bool] is a subclass of [int]). *)
Definition py_abs (v : pyval) : option Z :=
  match v with
  | PInt z => Some (Z.abs z)
  | PBool b => Some (if b then 1 else 0)
  | _ => None
  end.

(** [n > v] for an int [n]: TypeError unless [v] is a number. *)
Definition int_gt (n : Z) (v : pyval) : option bool :=
  match v with
  | PInt m => Some (m <? n)
  | PBool b => Some ((if b then 1 else 0) <? n)
  | _ => None
  end.

(** [v == n] for an int [n]. *)
Definition eq_int (v : pyval) (n : Z) : bool :=
  match v with
  | PInt m => m =? n
  | PBool b => (if b then 1 else 0) =? n
  | _ => false
  end.

(** [a or b], where evaluating either side may raise. *)
Definition or_else (a : option pyval) (b : option pyval) : option pyval :=
  match a with
  | None => None
  | Some x => if truthy x then Some x else b
  end.

(** [_safe_get] of the listener: [dict.get] on a dict, [getattr] elsewhere. *)
Definition _safe_get (obj : pyval) (key : string) (default : pyval) : pyval :=
  match obj with
  | PDict items => match assoc key items with Some x => x | None => default end
  | _ => getattr obj key default
  end.

(** [hasattr(v, k)] for the attribute names the source asks for. *)
Definition has_attr (v : pyval) (k : string) : bool :=
  match v with
  | PObj attrs => match assoc k attrs with Some _ => true | None => false end
  | _ => false
  end.

End Py.
Import Py.

(** ** Log records and broker calls *)

Inductive Level : Type := DEBUG | INFO | WARNING | ERROR.

(** A log record: its level and the fixed text that opens the message. *)
Record LogEntry : Type := mkLog { level : Level; text : string }.

Definition Log : Type := list LogEntry.

(** The outcome of awaiting [positions.close_position_direct(contract_id)]:
    [None] when the call raises, otherwise the returned value. *)
Definition CloseOracle : Type := pyval -> option pyval.

(** The object handed to a rule as [trading_suite]; [None] is Python's [None]. *)
Definition Suite : Type := option CloseOracle.

Inductive Call : Type :=
| GetAllPositions
| ClosePositionDirect (contract_id : pyval).

(** ** [src/rules/max_contracts_rule.py] *)

Module MaxContractsRule.

(** The dataclass [MaxContractsConfig].  Its fields are annotated but not
    checked: they hold whatever the JSON document gave. *)
Record MaxContractsConfig : Type := mkConfig {
  enabled : pyval;
  max_size : pyval;
  severity : pyval;
  auto_flatten : pyval
}.

Record t : Type := mkRule {
  config : MaxContractsConfig;
  _breach_count : nat
}.

Definition __init__ (c : MaxContractsConfig) : t :=
  {| config := c; _breach_count := 0 |}.

(** The dict returned by [_extract_position_data]. *)
Record PositionData : Type := mkPositionData {
  contract_id : pyval;
  account_id : pyval;
  size : pyval;
  event : pyval
}.

(** The body of the [try] of [_extract_position_data]; [None] is a raised
    exception. *)
Definition extract_body (position_event : pyval) : option PositionData :=
  let enriched : option (option PositionData) :=
    if isinstance_dict position_event && contains position_event "current_position" then
      current_pos ← subscript position_event "current_position";
      if truthy current_pos then
        order_event ← dict_get position_event "order_event" (PDict []);
        cid ← or_else (dict_get order_event "contractId" PNone)
                (or_else (dict_get order_event "contract_id" PNone)
                   (or_else (if has_getitem current_pos
                             then subscript current_pos "contractId"
                             else Some (getattr current_pos "contractId" (PStr "unknown")))
                      (Some (PStr "unknown"))));
        aid ← or_else (dict_get order_event "accountId" PNone)
                (or_else (dict_get order_event "account_id" PNone)
                   (Some (PStr "unknown")));
        raw ← (if has_getitem current_pos
               then subscript current_pos "size"
               else Some (getattr current_pos "size" (PInt 0)));
        sz ← py_abs raw;
        Some (Some {| contract_id := cid; account_id := aid;
                      size := PInt sz; event := position_event |})
      else Some None
    else Some None in
  found ← enriched;
  match found with
  | Some pd => Some pd
  | None =>
      if isinstance_dict position_event then
        position ← or_else (dict_get position_event "position" PNone)
                     (or_else (dict_get position_event "new_position" PNone)
                        (Some position_event));
        cid ← or_else (dict_get position_event "contractId" PNone)
                (dict_get position_event "contract_id" (PStr "unknown"));
        aid ← or_else (dict_get position_event "accountId" PNone)
                (dict_get position_event "account_id" (PStr "unknown"));
        sz ← (if isinstance_dict position
              then dict_get position "size" (PInt 0)
              else Some (getattr position "size" (PInt 0)));
        Some {| contract_id := cid; account_id := aid;
                size := sz; event := position_event |}
      else
        position ← or_else (Some (getattr position_event "position" PNone))
                     (or_else (Some (getattr position_event "new_position" PNone))
                        (Some position_event));
        cid ← or_else (Some (getattr position_event "contractId" PNone))
                (Some (getattr position_event "contract_id" (PStr "unknown")));
        aid ← or_else (Some (getattr position_event "accountId" PNone))
                (Some (getattr position_event "account_id" (PStr "unknown")));
        Some {| contract_id := cid; account_id := aid;
                size := getattr position "size" (PInt 0); event := position_event |}
  end.

Definition _extract_position_data (position_event : pyval) : option PositionData * Log :=
  match extract_body position_event with
  | Some pd => (Some pd, [])
  | None => (None, [mkLog ERROR "Failed to extract position data"])
  end.

Definition _log_breach (r : t) (position_data : PositionData) : Log :=
  [mkLog WARNING "MAX_CONTRACTS_BREACH"].

Definition _auto_flatten (r : t) (position_data : PositionData) (trading_suite : Suite)
  : Log * list Call :=
  match trading_suite with
  | None => ([mkLog WARNING "No TradingSuite provided for auto-flatten"], [])
  | Some close_position_direct =>
      let cid := contract_id position_data in
      let started := mkLog INFO "AUTO-FLATTENING breach position" in
      let failed := mkLog ERROR "Failed to auto-flatten" in
      let raised := mkLog ERROR "Error during auto-flatten" in
      (match close_position_direct cid with
       | None => [started; raised]
       | Some result =>
           if truthy result then
             match dict_get result "success" PNone with
             | None => [started; raised]
             | Some ok =>
                 if truthy ok
                 then [started; mkLog INFO "Auto-flattened breaching position"]
                 else [started; failed]
             end
           else [started; failed]
       end, [ClosePositionDirect cid])
  end.

Definition _handle_breach (r : t) (position_data : PositionData) (trading_suite : Suite)
  : t * Log * list Call :=
  let r1 := {| config := config r; _breach_count := S (_breach_count r) |} in
  let l1 := _log_breach r1 position_data in
  if truthy (auto_flatten (config r1)) then
    let '(l2, c2) := _auto_flatten r1 position_data trading_suite in
    (r1, l1 ++ l2, c2)
  else (r1, l1, []).

(** [check]: [true] is "within limits", [false] is "breach detected". *)
Definition check (r : t) (position_event : pyval) (trading_suite : Suite)
  : bool * t * Log * list Call :=
  if negb (truthy (enabled (config r))) then
    (true, r, [mkLog DEBUG "MaxContractsRule: disabled, skipping check"], [])
  else
    let l0 := [mkLog DEBUG "MaxContractsRule: checking position against limit"] in
    let caught := mkLog ERROR "Error in MaxContractsRule.check" in
    let '(position_data, l1) := _extract_position_data position_event in
    match position_data with
    | None =>
        (true, r, l0 ++ l1 ++ [mkLog WARNING "Could not extract position data from event"], [])
    | Some pd =>
        match py_abs (size pd) with
        | None => (true, r, l0 ++ l1 ++ [caught], [])
        | Some current_size =>
            match int_gt current_size (max_size (config r)) with
            | None => (true, r, l0 ++ l1 ++ [caught], [])
            | Some true =>
                let '(r', l2, c2) := _handle_breach r pd trading_suite in
                (false, r', l0 ++ l1 ++ l2, c2)
            | Some false => (true, r, l0 ++ l1, [])
            end
        end
    end.

(** The dict returned by [get_stats]. *)
Record Stats : Type := mkStats {
  stat_rule_name : string;
  stat_enabled : pyval;
  stat_max_size : pyval;
  stat_severity : pyval;
  stat_auto_flatten : pyval;
  stat_breach_count : nat
}.

Definition get_stats (r : t) : Stats :=
  {| stat_rule_name := "max_contracts";
     stat_enabled := enabled (config r);
     stat_max_size := max_size (config r);
     stat_severity := severity (config r);
     stat_auto_flatten := auto_flatten (config r);
     stat_breach_count := _breach_count r |}.

Definition reset (r : t) : t * Log :=
  ({| config := config r; _breach_count := 0 |},
   [mkLog INFO "MaxContractsRule state reset"]).

End MaxContractsRule.

(** ** [src/rules/rule_engine.py]: the engine *)

Module RuleEngine.

Record EngineStats : Type := mkEngineStats {
  events_processed : nat;
  rules_checked : nat;
  breaches_detected : nat
}.

Record t : Type := mkEngine {
  config_path : string;
  config : pyval;
  rules : list MaxContractsRule.t;
  stats : EngineStats
}.

Definition __init__ (path : option string) : t :=
  {| config_path := match path with
                    | Some p => if String.eqb p "" then "config/risk_config.json" else p
                    | None => "config/risk_config.json"
                    end;
     config := PDict [];
     rules := [];
     stats := mkEngineStats 0 0 0 |}.

(** What the file system answers when [_load_config] looks at [config_path]:
    the file does not exist; [open] or [json.load] raises; or the document
    parses to a value. *)
Inductive ConfigFile : Type :=
| FileMissing
| FileMalformed
| FileJson (doc : pyval).

(** The literal [{"rules": {}, "global": {"dry_run": True}}]. *)
Definition default_config : pyval :=
  PDict [("rules", PDict []); ("global", PDict [("dry_run", PBool true)])].

Definition set_config (e : t) (c : pyval) : t :=
  {| config_path := config_path e; config := c; rules := rules e; stats := stats e |}.

Definition set_rules (e : t) (rs : list MaxContractsRule.t) : t :=
  {| config_path := config_path e; config := config e; rules := rs; stats := stats e |}.

Definition set_stats (e : t) (st : EngineStats) : t :=
  {| config_path := config_path e; config := config e; rules := rules e; stats := st |}.

(** [_load_config]: the whole body sits in [try ... except Exception]. *)
Definition _load_config (e : t) (file : ConfigFile) : t * Log :=
  match file with
  | FileMissing =>
      (set_config e default_config, [mkLog WARNING "Config file not found"])
  | FileMalformed =>
      (set_config e default_config, [mkLog ERROR "Failed to load config"])
  | FileJson doc =>
      (set_config e doc, [mkLog INFO "Loaded risk config"])
  end.

(** [_initialize_rules]: nothing is caught here, so [None] is an exception
    that reaches the caller. *)
Definition _initialize_rules (e : t) : option (t * Log) :=
  rules_config ← dict_get (config e) "rules" (PDict []);
  mc ← dict_get rules_config "max_contracts" (PDict []);
  en ← dict_get mc "enabled" (PBool false);
  if truthy en then
    m ← subscript rules_config "max_contracts";
    c_enabled ← subscript m "enabled";
    c_max_size ← subscript m "max_size";
    c_severity ← subscript m "severity";
    c_auto_flatten ← dict_get m "auto_flatten" (PBool false);
    let max_contracts_config :=
      MaxContractsRule.mkConfig c_enabled c_max_size c_severity c_auto_flatten in
    let rule := MaxContractsRule.__init__ max_contracts_config in
    Some (set_rules e (rules e ++ [rule]), [mkLog INFO "Enabled MaxContractsRule"])
  else Some (e, []).

Definition initialize (e : t) (file : ConfigFile) : option (t * Log) :=
  let '(e1, l1) := _load_config e file in
  '(e2, l2) ← _initialize_rules e1;
  Some (e2, l1 ++ l2 ++ [mkLog INFO "RuleEngine initialized"]).

Definition reload_config (e : t) (file : ConfigFile) : option (t * Log) :=
  let '(e1, l1) := _load_config e file in
  '(e2, l2) ← _initialize_rules e1;
  Some (e2, [mkLog INFO "Reloading risk configuration..."] ++ l1 ++ l2).

Definition reset_stats (e : t) : t * Log :=
  (set_stats e (mkEngineStats 0 0 0), [mkLog INFO "RuleEngine stats reset"]).

(** One entry of [results['breaches']] and of [results['actions_taken']]. *)
Record BreachInfo : Type := mkBreachInfo {
  rule : string;
  rule_config : MaxContractsRule.Stats
}.

Record ActionTaken : Type := mkActionTaken {
  action_rule : string;
  action : string
}.

Record Results : Type := mkResults {
  res_event_type : string;
  res_rules_checked : nat;
  breaches : list BreachInfo;
  actions_taken : list ActionTaken
}.

(** [rule.__class__.__name__]. *)
Definition class_name (r : MaxContractsRule.t) : string := "MaxContractsRule".

(** What the [for rule in self.rules] loop has built so far: the rules already
    visited (each is mutated in place by its [check]), the engine counters,
    the results dict, and the traces. *)
Record LoopState : Type := mkLoop {
  visited : list MaxContractsRule.t;
  loop_stats : EngineStats;
  loop_results : Results;
  loop_log : Log;
  loop_calls : list Call
}.

(** One turn of the loop.  The engine has no [trading_suite] attribute, so
    the rule receives [api_client]. *)
Definition loop_body (event_data : pyval) (api_client : Suite)
    (acc : LoopState) (r : MaxContractsRule.t) : LoopState :=
  let st1 := loop_stats acc in
  let st2 := mkEngineStats (events_processed st1) (S (rules_checked st1))
               (breaches_detected st1) in
  let res1 := loop_results acc in
  let res2 := mkResults (res_event_type res1) (S (res_rules_checked res1))
                (breaches res1) (actions_taken res1) in
  let '(rule_passed, r', l, c) := MaxContractsRule.check r event_data api_client in
  if negb rule_passed then
    let st3 := mkEngineStats (events_processed st2) (rules_checked st2)
                 (S (breaches_detected st2)) in
    let breach_info := mkBreachInfo (class_name r') (MaxContractsRule.get_stats r') in
    let acts :=
      if truthy (MaxContractsRule.auto_flatten (MaxContractsRule.config r'))
      then actions_taken res2 ++ [mkActionTaken (class_name r') "auto_flatten_attempted"]
      else actions_taken res2 in
    mkLoop (visited acc ++ [r']) st3
      (mkResults (res_event_type res2) (res_rules_checked res2)
         (breaches res2 ++ [breach_info]) acts)
      (loop_log acc ++ l) (loop_calls acc ++ c)
  else
    mkLoop (visited acc ++ [r']) st2 res2 (loop_log acc ++ l) (loop_calls acc ++ c).

Definition risk_evaluable (event_type : string) : bool :=
  String.eqb event_type "position_updated" || String.eqb event_type "order_filled".

Definition process_event (e : t) (event_type : string) (event_data : pyval)
    (api_client : Suite) : Results * t * Log * list Call :=
  let st0 := stats e in
  let st1 := mkEngineStats (S (events_processed st0)) (rules_checked st0)
               (breaches_detected st0) in
  let l0 := [mkLog INFO "RuleEngine processing event"] in
  let results := mkResults event_type 0 [] [] in
  if negb (risk_evaluable event_type) then
    (results, set_stats e st1, l0, [])
  else
    let final := fold_left (loop_body event_data api_client) (rules e)
                   (mkLoop [] st1 results l0 []) in
    (loop_results final,
     {| config_path := config_path e; config := config e;
        rules := visited final; stats := loop_stats final |},
     loop_log final, loop_calls final).

End RuleEngine.

(** ** [src/rules/rule_engine.py]: the handler that feeds the engine *)

Module RiskEventHandler.

(** [self.rule_engine] is the very object the listener holds in its own
    [rule_engine] attribute; the handler therefore keeps no copy of it here
    and receives the shared engine as an argument. *)
Record t : Type := mkHandler {
  trading_suite : Suite;
  api_client : Suite
}.

(** [client] is the [trading_suite.client] attribute. *)
Definition __init__ (suite : Suite) (client : Suite) : t :=
  {| trading_suite := suite;
     api_client := match suite with Some _ => client | None => None end |}.

(** The body run for one breach whose stats snapshot has [auto_flatten] set. *)
Definition flatten_for_breach (h : t) (event : pyval) : Log * list Call :=
  let head := [mkLog WARNING "AUTO-FLATTEN ENABLED"] in
  let current_position :=
    if isinstance_dict event && contains event "current_position"
    then subscript event "current_position" else Some PNone in
  match current_position with
  | None => (head ++ [mkLog ERROR "Auto-flatten failed"], [])
  | Some cp =>
      match truthy cp, trading_suite h with
      | true, Some close_position_direct =>
          match dict_get cp "size" (PInt 0), dict_get cp "contract" (PStr "unknown") with
          | Some position_size, Some cid =>
              if negb (eq_int position_size 0) then
                (head ++ [mkLog INFO "Calling PositionManager close_position_direct"] ++
                   match close_position_direct cid with
                   | Some _ => [mkLog INFO "Auto-flatten PositionManager result"]
                   | None => [mkLog ERROR "PositionManager call failed"]
                   end,
                 [ClosePositionDirect cid])
              else (head ++ [mkLog WARNING "Position size is 0, no flattening needed"], [])
          | _, _ => (head ++ [mkLog ERROR "Auto-flatten failed"], [])
          end
      | _, _ => (head ++ [mkLog ERROR "No position data available for auto-flatten"], [])
      end
  end.

Fixpoint report_breaches (h : t) (event : pyval) (bs : list RuleEngine.BreachInfo)
  : Log * list Call :=
  match bs with
  | [] => ([], [])
  | b :: bs' =>
      let l0 := [mkLog WARNING "Rule"] in
      let '(l1, c1) :=
        if truthy (MaxContractsRule.stat_auto_flatten (RuleEngine.rule_config b))
        then flatten_for_breach h event else ([], []) in
      let '(l2, c2) := report_breaches h event bs' in
      (l0 ++ l1 ++ l2, c1 ++ c2)
  end.

Definition on_order_filled (h : t) (engine : RuleEngine.t) (event : pyval)
  : RuleEngine.t * Log * list Call :=
  let l0 := [mkLog INFO "RiskEventHandler received order_filled event"] in
  let '(results, engine', l1, c1) :=
    RuleEngine.process_event engine "order_filled" event (api_client h) in
  let l2 := [mkLog INFO "Risk rules evaluated"] in
  match RuleEngine.breaches results with
  | [] => (engine', l0 ++ l1 ++ l2 ++ [mkLog INFO "No breaches detected - trade within limits"], c1)
  | _ :: _ =>
      let '(l3, c3) := report_breaches h event (RuleEngine.breaches results) in
      (engine', l0 ++ l1 ++ l2 ++ [mkLog WARNING "RISK BREACHES DETECTED"] ++ l3, c1 ++ c3)
  end.

(** The record that opens [on_position_updated]: which shape the size was
    found in, if any. *)
Definition size_check_log (event : pyval) : Log :=
  if isinstance_dict event && contains event "size"
  then [mkLog INFO "Position size check"]
  else if has_attr event "data" && isinstance_dict (getattr event "data" PNone)
  then [mkLog INFO "Position size check"]
  else if has_attr event "size"
  then [mkLog INFO "Position size check"]
  else [mkLog WARNING "Could not extract position size from event"].

(** The contract id [on_position_updated] closes on a breach: from the dict,
    from the dict under [data], or from the attributes. *)
Definition breach_contract_id (event : pyval) : pyval :=
  if isinstance_dict event
  then default PNone (dict_get event "contractId" PNone)
  else if has_attr event "data" && isinstance_dict (getattr event "data" PNone)
  then default PNone (dict_get (getattr event "data" PNone) "contractId" PNone)
  else if has_attr event "accountId" && has_attr event "contractId"
  then getattr event "contractId" PNone
  else PNone.

Definition flatten_position_for_breach (h : t) (event : pyval) : Log * list Call :=
  let head := [mkLog WARNING "AUTO-FLATTEN ENABLED"] in
  let cid := breach_contract_id event in
  match truthy cid, trading_suite h with
  | true, Some close_position_direct =>
      (head ++ [mkLog INFO "Calling PositionManager to close position"] ++
         match close_position_direct cid with
         | Some _ => [mkLog INFO "Close position result"]
         | None => [mkLog ERROR "Auto-flatten failed"]
         end,
       [ClosePositionDirect cid])
  | _, _ => (head ++ [mkLog ERROR "Missing contract_id or trading_suite for auto-flatten"], [])
  end.

Fixpoint report_position_breaches (h : t) (event : pyval)
    (bs : list RuleEngine.BreachInfo) : Log * list Call :=
  match bs with
  | [] => ([], [])
  | b :: bs' =>
      let l0 := [mkLog WARNING "Rule"] in
      let '(l1, c1) :=
        if truthy (MaxContractsRule.stat_auto_flatten (RuleEngine.rule_config b))
        then flatten_position_for_breach h event else ([], []) in
      let '(l2, c2) := report_position_breaches h event bs' in
      (l0 ++ l1 ++ l2, c1 ++ c2)
  end.

(** [on_position_updated]; the event is handed to the engine as it came.
    (The records at DEBUG level, which only print the event, are left out.) *)
Definition on_position_updated (h : t) (engine : RuleEngine.t) (event : pyval)
  : RuleEngine.t * Log * list Call :=
  let l0 := [mkLog INFO "RiskEventHandler received position_updated event"]
            ++ size_check_log event in
  let '(results, engine', l1, c1) :=
    RuleEngine.process_event engine "position_updated" event (api_client h) in
  let l2 := [mkLog INFO "Risk rules evaluated"] in
  match RuleEngine.breaches results with
  | [] => (engine', l0 ++ l1 ++ l2 ++ [mkLog INFO "No breaches detected - position within limits"], c1)
  | _ :: _ =>
      let '(l3, c3) := report_position_breaches h event (RuleEngine.breaches results) in
      (engine', l0 ++ l1 ++ l2 ++ [mkLog WARNING "RISK BREACHES DETECTED"] ++ l3, c1 ++ c3)
  end.

End RiskEventHandler.

(** ** Numbers as the listener prints and compares them *)

(** Truthiness of a float: [bool(x)] is [x != 0.0]. *)
Definition float_truthy (x : float) : bool := negb (x =? 0)%float.

Definition digits (z : Z) : string := NilZero.string_of_uint (N.to_uint (Z.to_N z)).

(** [n / d] rounded to the nearest integer, ties to even, for [0 <= n], [0 < d]. *)
Definition round_half_even (n d : Z) : Z :=
  let q := n / d in
  let r := n mod d in
  if 2 * r <? d then q
  else if d <? 2 * r then q + 1
  else if Z.even q then q else q + 1.

(** The format spec [.2f] and, with [plus], [+.2f]. *)
Definition format_2f (plus : bool) (x : Q) : string :=
  let cents := round_half_even (Z.abs (Qnum x) * 100) (Zpos (Qden x)) in
  let frac := cents mod 100 in
  let sign := if Qnum x <? 0 then "-" else if plus then "+" else "" in
  let pad := if frac <? 10 then "0" else "" in
  (sign ++ digits (cents / 100) ++ "." ++ pad ++ digits frac)%string.

(** The enum [PositionType] belongs to the library [project_x_py], with the
    values the library declares; the listener only uses the member names. *)
Definition PositionType_name (type_int : Z) : option string :=
  match type_int with
  | 0 => Some "UNDEFINED"
  | 1 => Some "LONG"
  | 2 => Some "SHORT"
  | _ => None
  end.

(** [OrderSide.BUY] of the same library. *)
Definition OrderSide_BUY : Z := 0.

(** ** [src/event_listener.py] *)

Module EventListener.

(** A position object as the broker library hands it over, in a query answer
    or as the payload of a position-update event.  [None] in a field is a
    missing attribute or key, for which [_safe_get] supplies its default.
    Such an object is truthy. *)
Record RawPosition : Type := mkRaw {
  raw_contractId : option string;
  raw_size : option Z;
  raw_averagePrice : option Q;
  raw_type : option Z
}.

(** The dict built by [_get_current_position_info]. *)
Record PositionInfo : Type := mkInfo {
  pi_contract : string;
  pi_size : Z;
  pi_avg_price : string;
  pi_direction : string;
  pi_pnl : option string
}.

(** The dict stored in [_last_confirmed_position]. *)
Record ConfirmedPosition : Type := mkConfirmed {
  cp_contract : string;
  cp_size : Z;
  cp_direction : string;
  cp_avg_price : string
}.

(** [event_counts]: its three keys are literals, set once and never removed. *)
Record EventCounts : Type := mkCounts {
  order_filled : nat;
  position_updated : nat;
  position_pnl_update : nat
}.

Record t : Type := mkListener {
  suite : bool;                       (* [self.suite] is not [None] *)
  rule_engine : option RuleEngine.t;
  risk_handler : option RiskEventHandler.t;
  enable_risk_rules : bool;
  event_counts : EventCounts;
  _position_cache : option PositionInfo;
  _cache_timestamp : float;
  _cache_ttl : float;
  _trade_actions : gmap string nat;
  _last_confirmed_position : option ConfirmedPosition;
  _position_flat_timestamp : option float;
  _ignore_reopen_window : float;
  _stale_executions_filtered : nat;
  log : Log;                          (* trace: records emitted so far *)
  calls : list Call                   (* trace: broker calls made so far *)
}.

Definition __init__ (enable : bool) : t :=
  {| suite := false;
     rule_engine := None;
     risk_handler := None;
     enable_risk_rules := enable;
     event_counts := mkCounts 0 0 0;
     _position_cache := None;
     _cache_timestamp := 0%float;
     _cache_ttl := 0.5%float;
     _trade_actions :=
       <["Open" := 0%nat]> (<["Add" := 0%nat]> (<["Reduce" := 0%nat]>
       (<["Close" := 0%nat]> (<["Reverse" := 0%nat]> (<["Adjust" := 0%nat]>
       (<["Unknown" := 0%nat]> ∅))))));
     _last_confirmed_position := None;
     _position_flat_timestamp := None;
     _ignore_reopen_window := 3.0%float;
     _stale_executions_filtered := 0;
     log := [];
     calls := [] |}.

(** *** Assignments to single attributes *)

Definition set_engine (s : t) (e : option RuleEngine.t) : t :=
  mkListener (suite s) e (risk_handler s) (enable_risk_rules s) (event_counts s)
    (_position_cache s) (_cache_timestamp s) (_cache_ttl s) (_trade_actions s)
    (_last_confirmed_position s) (_position_flat_timestamp s)
    (_ignore_reopen_window s) (_stale_executions_filtered s) (log s) (calls s).

Definition set_suite (s : t) (b : bool) : t :=
  mkListener b (rule_engine s) (risk_handler s) (enable_risk_rules s) (event_counts s)
    (_position_cache s) (_cache_timestamp s) (_cache_ttl s) (_trade_actions s)
    (_last_confirmed_position s) (_position_flat_timestamp s)
    (_ignore_reopen_window s) (_stale_executions_filtered s) (log s) (calls s).

Definition set_handler (s : t) (h : option RiskEventHandler.t) : t :=
  mkListener (suite s) (rule_engine s) h (enable_risk_rules s) (event_counts s)
    (_position_cache s) (_cache_timestamp s) (_cache_ttl s) (_trade_actions s)
    (_last_confirmed_position s) (_position_flat_timestamp s)
    (_ignore_reopen_window s) (_stale_executions_filtered s) (log s) (calls s).

Definition set_enable_risk_rules (s : t) (b : bool) : t :=
  mkListener (suite s) (rule_engine s) (risk_handler s) b (event_counts s)
    (_position_cache s) (_cache_timestamp s) (_cache_ttl s) (_trade_actions s)
    (_last_confirmed_position s) (_position_flat_timestamp s)
    (_ignore_reopen_window s) (_stale_executions_filtered s) (log s) (calls s).

Definition set_event_counts (s : t) (c : EventCounts) : t :=
  mkListener (suite s) (rule_engine s) (risk_handler s) (enable_risk_rules s) c
    (_position_cache s) (_cache_timestamp s) (_cache_ttl s) (_trade_actions s)
    (_last_confirmed_position s) (_position_flat_timestamp s)
    (_ignore_reopen_window s) (_stale_executions_filtered s) (log s) (calls s).

Definition set_cache (s : t) (v : option PositionInfo) (ts : float) : t :=
  mkListener (suite s) (rule_engine s) (risk_handler s) (enable_risk_rules s)
    (event_counts s) v ts (_cache_ttl s) (_trade_actions s)
    (_last_confirmed_position s) (_position_flat_timestamp s)
    (_ignore_reopen_window s) (_stale_executions_filtered s) (log s) (calls s).

Definition set_trade_actions (s : t) (m : gmap string nat) : t :=
  mkListener (suite s) (rule_engine s) (risk_handler s) (enable_risk_rules s)
    (event_counts s) (_position_cache s) (_cache_timestamp s) (_cache_ttl s) m
    (_last_confirmed_position s) (_position_flat_timestamp s)
    (_ignore_reopen_window s) (_stale_executions_filtered s) (log s) (calls s).

Definition set_confirmed (s : t) (c : option ConfirmedPosition) : t :=
  mkListener (suite s) (rule_engine s) (risk_handler s) (enable_risk_rules s)
    (event_counts s) (_position_cache s) (_cache_timestamp s) (_cache_ttl s)
    (_trade_actions s) c (_position_flat_timestamp s)
    (_ignore_reopen_window s) (_stale_executions_filtered s) (log s) (calls s).

Definition set_flat_timestamp (s : t) (m : option float) : t :=
  mkListener (suite s) (rule_engine s) (risk_handler s) (enable_risk_rules s)
    (event_counts s) (_position_cache s) (_cache_timestamp s) (_cache_ttl s)
    (_trade_actions s) (_last_confirmed_position s) m
    (_ignore_reopen_window s) (_stale_executions_filtered s) (log s) (calls s).

Definition set_stale_filtered (s : t) (n : nat) : t :=
  mkListener (suite s) (rule_engine s) (risk_handler s) (enable_risk_rules s)
    (event_counts s) (_position_cache s) (_cache_timestamp s) (_cache_ttl s)
    (_trade_actions s) (_last_confirmed_position s) (_position_flat_timestamp s)
    (_ignore_reopen_window s) n (log s) (calls s).

(** [logger.<level>(...)], once per record of [l]. *)
Definition emit (s : t) (l : Log) : t :=
  mkListener (suite s) (rule_engine s) (risk_handler s) (enable_risk_rules s)
    (event_counts s) (_position_cache s) (_cache_timestamp s) (_cache_ttl s)
    (_trade_actions s) (_last_confirmed_position s) (_position_flat_timestamp s)
    (_ignore_reopen_window s) (_stale_executions_filtered s) (log s ++ l) (calls s).

(** An awaited broker call. *)
Definition called (s : t) (c : list Call) : t :=
  mkListener (suite s) (rule_engine s) (risk_handler s) (enable_risk_rules s)
    (event_counts s) (_position_cache s) (_cache_timestamp s) (_cache_ttl s)
    (_trade_actions s) (_last_confirmed_position s) (_position_flat_timestamp s)
    (_ignore_reopen_window s) (_stale_executions_filtered s) (log s) (calls s ++ c).

(** *** Start-up *)

(** [_initialize_risk_rules]: the engine is assigned before [initialize] is
    awaited, so it stays in place, with the configuration already loaded,
    when initialising the rules raises.  [file] is what the file system
    answers; [close] and [client] stand for the suite and its [client]. *)
Definition _initialize_risk_rules (s : t) (file : RuleEngine.ConfigFile)
    (close : CloseOracle) (client : Suite) : t :=
  let e0 := RuleEngine.__init__ (Some "config/risk_config.json") in
  match RuleEngine.initialize e0 file with
  | Some (e, l) =>
      set_handler (set_engine (emit s l) (Some e))
        (Some (RiskEventHandler.__init__ (Some close) client))
  | None =>
      let '(e1, l1) := RuleEngine._load_config e0 file in
      set_enable_risk_rules
        (set_engine (emit s (l1 ++ [mkLog ERROR "Failed to initialize risk rules"])) (Some e1))
        false
  end.

(** [setup_suite], once [TradingSuite.create] has returned the suite. *)
Definition setup_suite (s : t) (file : RuleEngine.ConfigFile)
    (close : CloseOracle) (client : Suite) : t :=
  let s1 := set_suite (emit s [mkLog INFO "Initializing TradingSuite for event listening..."]) true in
  let s2 := if enable_risk_rules s1 then _initialize_risk_rules s1 file close client else s1 in
  emit s2 [mkLog INFO "TradingSuite initialized and event handlers registered";
           mkLog INFO "Ready to receive real-time events from broker..."].

(** *** Decoding *)

Definition _decode_position_type (type_int : Z) : string :=
  match PositionType_name type_int with
  | Some name => name
  | None => ("UNKNOWN(" ++ NilZero.string_of_int (Z.to_int type_int) ++ ")")%string
  end.

(** *** The trade-action classifier *)

Definition _classify_trade_action (prev_pos current_pos : option PositionInfo)
    (order_side : string) : string :=
  match prev_pos, current_pos with
  | None, Some _ => "Open"
  | Some _, None => "Close"
  | Some prev, Some current =>
      let prev_size := pi_size prev in
      let current_size := pi_size current in
      let prev_direction := pi_direction prev in
      let current_direction := pi_direction current in
      if (Z.abs prev_size =? 0) && (0 <? Z.abs current_size) then "Open"
      else if (Z.abs current_size =? 0) && (0 <? Z.abs prev_size) then "Close"
      else if String.eqb current_direction prev_direction then
        if Z.abs prev_size <? Z.abs current_size then "Add"
        else if Z.abs current_size <? Z.abs prev_size then "Reduce"
        else "Adjust"
      else if negb (String.eqb current_direction prev_direction) then "Flip"
      else "Unknown"
  | None, None => "Unknown"
  end.

(** *** The snapshot cache *)

(** What the broker answers when [get_all_positions()] is awaited: the call
    raises, or it returns the positions, where an element is a position
    object or, as [None], a falsy value; [unrealized_pnl] is what the inner
    [try] around the price query obtained, [None] when the price is falsy or
    anything there raised. *)
Inductive QueryOutcome : Type :=
| QueryRaises
| QueryReturns (positions : list (option RawPosition)) (unrealized_pnl : option Q).

Definition snapshot_of (position : RawPosition) (unrealized_pnl : option Q) : PositionInfo :=
  {| pi_contract := default "unknown" (raw_contractId position);
     pi_size := default 0 (raw_size position);
     pi_avg_price := ("$" ++ format_2f false (default 0%Q (raw_averagePrice position)))%string;
     pi_direction := _decode_position_type (default 0 (raw_type position));
     pi_pnl := match unrealized_pnl with
               | Some u => Some ("$" ++ format_2f true u)%string
               | None => None
               end |}.

(** The test [not force_refresh and self._position_cache and
    (now - self._cache_timestamp) < self._cache_ttl]; the cached dict is
    tested by truthiness, which a stored [None] fails, and the age is the
    binary64 difference of the two readings. *)
Definition cache_hit (s : t) (force_refresh : bool) (now : float) : bool :=
  negb force_refresh
  && (match _position_cache s with Some _ => true | None => false end)
  && (now - _cache_timestamp s <? _cache_ttl s)%float.

(** [_get_current_position_info]; [now] is the clock reading and [answer]
    the broker's answer should the query be made. *)
Definition _get_current_position_info (s : t) (force_refresh : bool) (now : float)
    (answer : QueryOutcome) : option PositionInfo * t :=
  if negb (suite s) then (None, s)
  else if cache_hit s force_refresh now then (_position_cache s, s)
  else
    let s1 := called s [GetAllPositions] in
    match answer with
    | QueryRaises => (None, emit s1 [mkLog WARNING "Could not fetch position info"])
    | QueryReturns positions unrealized_pnl =>
        match positions with
        | [] => (None, set_cache s1 None now)               (* [if not positions] *)
        | None :: _ => (None, set_cache s1 None now)        (* [if not position] *)
        | Some position :: _ =>
            let result := snapshot_of position unrealized_pnl in
            (Some result, set_cache s1 (Some result) now)
        end
    end.

(** *** The suppression window *)

(** [self._position_flat_timestamp and (now - self._position_flat_timestamp)
    < self._ignore_reopen_window]: the marker is tested by truthiness, so it
    counts when it is a float other than [0.0], and the elapsed time is the
    binary64 difference of the two readings. *)
Definition within_window (s : t) (now : float) : bool :=
  match _position_flat_timestamp s with
  | Some ts => float_truthy ts && (now - ts <? _ignore_reopen_window s)%float
  | None => false
  end.

Definition is_stale_after_manual_close (s : t) (now : float)
    (current_position : option PositionInfo) : bool :=
  within_window s now &&
  match current_position with
  | Some p => 0 <? Z.abs (pi_size p)
  | None => false
  end.

(** *** The order-fill handler *)

Record FillEvent : Type := mkFill { fill_data : pyval }.

(** Clock readings and broker answers met by one run of [_on_order_filled]:
    at the first cache read, at the second one (after the sleep), and at the
    staleness test. *)
Record FillOracle : Type := mkFillOracle {
  now_prev : float;
  answer_prev : QueryOutcome;
  now_curr : float;
  answer_curr : QueryOutcome;
  now_check : float
}.

Definition count_fill (c : EventCounts) : EventCounts :=
  mkCounts (S (order_filled c)) (position_updated c) (position_pnl_update c).

Definition count_position (c : EventCounts) : EventCounts :=
  mkCounts (order_filled c) (S (position_updated c)) (position_pnl_update c).

Definition fill_handler_error : Log :=
  [mkLog ERROR "Error in event handler _on_order_filled"; mkLog ERROR "Event data"].

Definition stale_records : Log :=
  [mkLog WARNING "STALE_EXECUTION_IGNORED";
   mkLog WARNING "This order fill is likely from before manual close";
   mkLog WARNING "Confirmed position remains"].

Definition _on_order_filled (s : t) (event : FillEvent) (o : FillOracle) : t :=
  let s1 := set_event_counts s (count_fill (event_counts s)) in
  let data := fill_data event in
  let order_id := _safe_get data "order_id" (PStr "unknown") in
  let order_data := _safe_get data "order_data" (PDict []) in
  let side_int := _safe_get order_data "side" (PInt 0) in
  let side := if eq_int side_int OrderSide_BUY then "BUY" else "SELL" in
  let '(prev_position, s2) :=
    _get_current_position_info s1 false (now_prev o) (answer_prev o) in
  let '(current_position, s3) :=
    _get_current_position_info s2 false (now_curr o) (answer_curr o) in
  let now := now_check o in
  if is_stale_after_manual_close s3 now current_position then
    emit (set_stale_filtered s3 (S (_stale_executions_filtered s3))) stale_records
  else
    let trade_action := _classify_trade_action prev_position current_position side in
    match _trade_actions s3 !! trade_action with
    | None => emit s3 fill_handler_error            (* KeyError *)
    | Some n =>
        let s4 := set_trade_actions s3 (<[trade_action := S n]> (_trade_actions s3)) in
        let s5 := emit s4 [mkLog INFO "TRADE_EXECUTED"; mkLog INFO "ID"; mkLog INFO "Action"] in
        let total := [mkLog INFO "Total Trades"] in
        match prev_position, current_position with
        | Some _, Some current =>
            emit s5 ([mkLog INFO "Position"; mkLog INFO "Avg Price"] ++
                     (match pi_pnl current with
                      | Some _ => if 0 <? Z.abs (pi_size current)
                                  then [mkLog INFO "Unrealized PnL"] else []
                      | None => []
                      end) ++ total)
        | None, Some _ =>
            emit s5 ([mkLog INFO "Position Opened"; mkLog INFO "Avg Price"] ++ total)
        | Some _, None =>
            (* [_get_incremental_realized_pnl] is a plain function returning
               [0.0]; awaiting its result raises TypeError *)
            emit s5 ([mkLog INFO "Position Closed"] ++ fill_handler_error)
        | None, None =>
            emit s5 ([mkLog INFO "Position: FLAT"] ++ total)
        end
    end.

Definition position_to_py (p : PositionInfo) : pyval :=
  PDict [("contract", PStr (pi_contract p));
         ("size", PInt (pi_size p));
         ("avg_price", PStr (pi_avg_price p));
         ("direction", PStr (pi_direction p));
         ("pnl", match pi_pnl p with Some x => PStr x | None => PNone end)].

(** Clock reading and broker answer met by the forced read of the wrapper. *)
Record RiskOracle : Type := mkRiskOracle {
  now_risk : float;
  answer_risk : QueryOutcome
}.

Definition _on_order_filled_with_risk_check (s : t) (event : FillEvent)
    (o : FillOracle) (r : RiskOracle) : t :=
  let s1 := _on_order_filled s event o in
  match enable_risk_rules s1, risk_handler s1 with
  | true, Some h =>
      let '(current_position, s2) :=
        _get_current_position_info s1 true (now_risk r) (answer_risk r) in
      let enriched_event :=
        PDict [("order_event", fill_data event);
               ("current_position",
                match current_position with
                | Some p => position_to_py p
                | None => PNone
                end);
               ("event_type", PStr "order_filled")] in
      match rule_engine s2 with
      | Some e =>
          let '(e', l, c) := RiskEventHandler.on_order_filled h e enriched_event in
          called (emit (set_engine s2 (Some e')) l) c
      | None =>
          emit s2 [mkLog INFO "RiskEventHandler received order_filled event";
                   mkLog ERROR "Error in risk check after order fill"]
      end
  | _, _ => s1
  end.

(** *** The position-update handler *)

Record PositionEvent : Type := mkPositionEvent { position_data : RawPosition }.

Definition confirmed_nonzero (s : t) : bool :=
  match _last_confirmed_position s with
  | Some c => 0 <? Z.abs (cp_size c)
  | None => false
  end.

(** The dict assigned to [_last_confirmed_position], from the decoded
    fields of the payload. *)
Definition confirmed_of (position : RawPosition) : ConfirmedPosition :=
  let contract := default "unknown" (raw_contractId position) in
  let size := default 0 (raw_size position) in
  let avg_price := default 0%Q (raw_averagePrice position) in
  let pos_type := default 0 (raw_type position) in
  let direction := _decode_position_type pos_type in
  {| cp_contract := contract;
     cp_size := size;
     cp_direction := direction;
     cp_avg_price := if negb (Qeq_bool avg_price 0)
                     then ("$" ++ format_2f false avg_price)%string
                     else "unknown" |}.

Definition ghost_records : Log :=
  [mkLog WARNING "GHOST_REOPEN_DETECTED";
   mkLog WARNING "This position change may be SDK catching up with manual order processing";
   mkLog WARNING "Ignoring for position state tracking - will be resolved by next poll"].

Definition _on_position_updated (s : t) (event : PositionEvent) (now : float) : t :=
  let s1 := set_event_counts s (count_position (event_counts s)) in
  let position := position_data event in
  let size := default 0 (raw_size position) in
  let update (s' : t) : t :=
    let s2 := set_confirmed s' (Some (confirmed_of position)) in
    if negb (size =? 0) && negb (within_window s2 now) then
      if enable_risk_rules s2 then s2
      else emit s2 [mkLog INFO "POSITION_UPDATED"; mkLog INFO "Contract";
                    mkLog INFO "Size"; mkLog INFO "Avg Price"; mkLog INFO "Total Updates"]
    else s2 in
  if (size =? 0) && confirmed_nonzero s1 then
    update (emit (set_flat_timestamp s1 (Some now))
              [mkLog INFO "MANUAL_POSITION_CLOSED"; mkLog INFO "Contract";
               mkLog INFO "Final Size"; mkLog INFO "Previous Position";
               mkLog INFO "Ignoring reopen events"])
  else if negb (size =? 0) && within_window s1 now then
    emit s1 ghost_records
  else update s1.

(** *** The P&L-update handler *)

(** The payload of a P&L event: amounts are numbers, [None] a missing key or
    attribute, for which [_safe_get] supplies its default. *)
Record PnlPayload : Type := mkPnl {
  pnl_contractId : option string;
  pnl_unrealizedPnl : option Q;
  pnl_realizedPnl : option Q
}.

Record PnlEvent : Type := mkPnlEvent { pnl_data : PnlPayload }.

Definition count_pnl (c : EventCounts) : EventCounts :=
  mkCounts (order_filled c) (position_updated c) (S (position_pnl_update c)).

Definition pnl_records : Log :=
  [mkLog INFO "P&L_UPDATE"; mkLog INFO "Contract"; mkLog INFO "Unrealized PnL";
   mkLog INFO "Realized PnL"; mkLog INFO "Total Updates"].

(** [_on_position_pnl_update]: every event is counted, every tenth is logged. *)
Definition _on_position_pnl_update (s : t) (event : PnlEvent) : t :=
  let s1 := set_event_counts s (count_pnl (event_counts s)) in
  if (position_pnl_update (event_counts s1) mod 10 =? 0)%nat
  then emit s1 pnl_records
  else s1.

(** *** Realized P&L of one position change *)

(** [_get_incremental_realized_pnl]; the float it returns is a rational here. *)
Definition _get_incremental_realized_pnl (prev_pos current_pos : option PositionInfo)
  : option Q :=
  match prev_pos with
  | None => None
  | Some prev =>
      let prev_size := Z.abs (pi_size prev) in
      match current_pos with
      | None => Some 0%Q
      | Some current =>
          let current_size := Z.abs (pi_size current) in
          if (current_size <? prev_size)
             && String.eqb (pi_direction prev) (pi_direction current)
          then Some 0%Q
          else if negb (String.eqb (pi_direction prev) (pi_direction current))
          then Some 0%Q
          else None
      end
  end.

End EventListener.

(** * Specification-side definitions *)

(** ** The classifier *)

(** The seven labels of the classifier and the strings that carry them. *)
Inductive TradeAction : Type := Open | Add | Reduce | Close | Flip | Adjust | Unknown.

Definition label (a : TradeAction) : string :=
  match a with
  | Open => "Open" | Add => "Add" | Reduce => "Reduce" | Close => "Close"
  | Flip => "Flip" | Adjust => "Adjust" | Unknown => "Unknown"
  end.

(** One side is flat and the other is not (sizes are compared in magnitude). *)
Definition zero_case (p c : EventListener.PositionInfo) : Prop :=
  (Z.abs (EventListener.pi_size p) = 0 /\ 0 < Z.abs (EventListener.pi_size c)) \/
  (Z.abs (EventListener.pi_size c) = 0 /\ 0 < Z.abs (EventListener.pi_size p)).

(** The decision table, in the order the specification gives it: presence,
    then zero sizes, then the size comparison in one direction, then a change
    of direction, and [Unknown] for what is left. *)
Inductive Classifies :
  option EventListener.PositionInfo -> option EventListener.PositionInfo ->
  TradeAction -> Prop :=
| classifies_open_absent c : Classifies None (Some c) Open
| classifies_close_absent p : Classifies (Some p) None Close
| classifies_open_zero p c :
    Z.abs (EventListener.pi_size p) = 0 -> 0 < Z.abs (EventListener.pi_size c) ->
    Classifies (Some p) (Some c) Open
| classifies_close_zero p c :
    Z.abs (EventListener.pi_size c) = 0 -> 0 < Z.abs (EventListener.pi_size p) ->
    Classifies (Some p) (Some c) Close
| classifies_add p c :
    ~ zero_case p c -> EventListener.pi_direction c = EventListener.pi_direction p ->
    Z.abs (EventListener.pi_size p) < Z.abs (EventListener.pi_size c) ->
    Classifies (Some p) (Some c) Add
| classifies_reduce p c :
    ~ zero_case p c -> EventListener.pi_direction c = EventListener.pi_direction p ->
    Z.abs (EventListener.pi_size c) < Z.abs (EventListener.pi_size p) ->
    Classifies (Some p) (Some c) Reduce
| classifies_adjust p c :
    ~ zero_case p c -> EventListener.pi_direction c = EventListener.pi_direction p ->
    Z.abs (EventListener.pi_size c) = Z.abs (EventListener.pi_size p) ->
    Classifies (Some p) (Some c) Adjust
| classifies_flip p c :
    ~ zero_case p c -> EventListener.pi_direction c <> EventListener.pi_direction p ->
    Classifies (Some p) (Some c) Flip
| classifies_unknown : Classifies None None Unknown.

(** ** The rule and the engine *)

(** The size a rule compares with its limit: what [_extract_position_data]
    finds in the event, then [abs]. *)
Definition event_size (position_event : pyval) : option Z :=
  pd ← MaxContractsRule.extract_body position_event;
  py_abs (MaxContractsRule.size pd).

(** The four components of what [MaxContractsRule.check] yields. *)
Definition check_passed (r : MaxContractsRule.t) (ev : pyval) (suite : Suite) : bool :=
  let '(passed, _, _, _) := MaxContractsRule.check r ev suite in passed.

Definition check_rule (r : MaxContractsRule.t) (ev : pyval) (suite : Suite)
  : MaxContractsRule.t :=
  let '(_, r', _, _) := MaxContractsRule.check r ev suite in r'.

Definition check_log (r : MaxContractsRule.t) (ev : pyval) (suite : Suite) : Log :=
  let '(_, _, l, _) := MaxContractsRule.check r ev suite in l.

Definition check_calls (r : MaxContractsRule.t) (ev : pyval) (suite : Suite) : list Call :=
  let '(_, _, _, c) := MaxContractsRule.check r ev suite in c.

(** The breach record the engine builds for a rule whose check did not pass:
    the rule's class name and its stats taken after the check. *)
Definition breach_of (r : MaxContractsRule.t) (ev : pyval) (suite : Suite)
  : list RuleEngine.BreachInfo :=
  if check_passed r ev suite then []
  else [RuleEngine.mkBreachInfo "MaxContractsRule"
          (MaxContractsRule.get_stats (check_rule r ev suite))].

(** Every call of [check] opens with exactly one DEBUG record, and nothing
    else in the engine logs at that level: counting them counts the calls. *)
Definition check_invocations (l : Log) : nat :=
  length (List.filter (fun e => match level e with DEBUG => true | _ => false end) l).

(** The components of what [RuleEngine.process_event] yields. *)
Definition engine_results (e : RuleEngine.t) (ty : string) (data : pyval) (api : Suite)
  : RuleEngine.Results :=
  let '(res, _, _, _) := RuleEngine.process_event e ty data api in res.

Definition engine_after (e : RuleEngine.t) (ty : string) (data : pyval) (api : Suite)
  : RuleEngine.t :=
  let '(_, e', _, _) := RuleEngine.process_event e ty data api in e'.

Definition engine_log (e : RuleEngine.t) (ty : string) (data : pyval) (api : Suite) : Log :=
  let '(_, _, l, _) := RuleEngine.process_event e ty data api in l.

(** The two outcomes of [_load_config] that fall back to the default. *)
Definition falls_back (file : RuleEngine.ConfigFile) : bool :=
  match file with
  | RuleEngine.FileMissing | RuleEngine.FileMalformed => true
  | RuleEngine.FileJson _ => false
  end.

(** A session of the engine: [initialize] and [reload_config] calls in any
    order, each meeting the same configuration file. *)
Inductive EngineOp : Type := DoInitialize | DoReload.

Definition run_op (file : RuleEngine.ConfigFile) (e : RuleEngine.t) (op : EngineOp)
  : option RuleEngine.t :=
  match op with
  | DoInitialize => fst <$> RuleEngine.initialize e file
  | DoReload => fst <$> RuleEngine.reload_config e file
  end.

Fixpoint run_ops (file : RuleEngine.ConfigFile) (e : RuleEngine.t) (ops : list EngineOp)
  : option RuleEngine.t :=
  match ops with
  | [] => Some e
  | op :: ops' => e' ← run_op file e op; run_ops file e' ops'
  end.

(** ** The listener *)

(** The number of position queries the listener has sent to the broker. *)
Definition position_queries (s : EventListener.t) : nat :=
  length (List.filter (fun c => match c with GetAllPositions => true | _ => false end)
            (EventListener.calls s)).

(** The snapshot the fill handler obtains from its second cache read, the
    one taken after the fill, and the listener as that read leaves it. *)
Definition fill_reads (s : EventListener.t) (o : EventListener.FillOracle)
  : option EventListener.PositionInfo * option EventListener.PositionInfo * EventListener.t :=
  let s1 := EventListener.set_event_counts s
              (EventListener.count_fill (EventListener.event_counts s)) in
  let '(prev, s2) :=
    EventListener._get_current_position_info s1 false
      (EventListener.now_prev o) (EventListener.answer_prev o) in
  let '(cur, s3) :=
    EventListener._get_current_position_info s2 false
      (EventListener.now_curr o) (EventListener.answer_curr o) in
  (prev, cur, s3).

Definition post_fill_snapshot (s : EventListener.t) (o : EventListener.FillOracle)
  : option EventListener.PositionInfo :=
  snd (fst (fill_reads s o)).

(** What the rule engine of a listener has counted so far. *)
Definition events_seen_by_engine (s : EventListener.t) : nat :=
  match EventListener.rule_engine s with
  | Some e => RuleEngine.events_processed (RuleEngine.stats e)
  | None => 0
  end.

Definition rules_checked_by_engine (s : EventListener.t) : nat :=
  match EventListener.rule_engine s with
  | Some e => RuleEngine.rules_checked (RuleEngine.stats e)
  | None => 0
  end.

(** The part of the listener that tracks the position and the risk rules:
    everything but the cache, the event counters and the traces. *)
Definition same_tracking (s s' : EventListener.t) : Prop :=
  EventListener._trade_actions s' = EventListener._trade_actions s /\
  EventListener._last_confirmed_position s' = EventListener._last_confirmed_position s /\
  EventListener._position_flat_timestamp s' = EventListener._position_flat_timestamp s /\
  EventListener._ignore_reopen_window s' = EventListener._ignore_reopen_window s /\
  EventListener._stale_executions_filtered s' = EventListener._stale_executions_filtered s /\
  EventListener.rule_engine s' = EventListener.rule_engine s /\
  EventListener.risk_handler s' = EventListener.risk_handler s /\
  EventListener.enable_risk_rules s' = EventListener.enable_risk_rules s.

Definition fetch_warning : LogEntry := mkLog WARNING "Could not fetch position info".

(** * Sample inputs *)

(** ** Rules, events and configuration *)

(** An enabled rule with limit [m], as [_initialize_rules] builds it. *)
Definition sample_rule (m : Z) : MaxContractsRule.t :=
  MaxContractsRule.__init__
    (MaxContractsRule.mkConfig (PBool true) (PInt m) (PStr "high") (PBool false)).

Definition disabled_rule (m : Z) : MaxContractsRule.t :=
  MaxContractsRule.__init__
    (MaxContractsRule.mkConfig (PBool false) (PInt m) (PStr "high") (PBool false)).

(** The mock position event of the source's own self-test, with size [n]. *)
Definition sample_position_event (n : Z) : pyval :=
  PDict [("contractId", PStr "MNQ_TEST");
         ("accountId", PStr "TEST123");
         ("position", PDict [("size", PInt n)]);
         ("size", PInt n)].

(** A configuration document that enables the max-contracts rule. *)
Definition sample_config_doc : pyval :=
  PDict [("rules",
          PDict [("max_contracts",
                  PDict [("enabled", PBool true);
                         ("max_size", PInt 3);
                         ("severity", PStr "high");
                         ("auto_flatten", PBool false)])]);
         ("global", PDict [("dry_run", PBool true)])].

(** An engine holding two enabled rules, with limits 2 and 10. *)
Definition two_rule_engine : RuleEngine.t :=
  RuleEngine.set_rules (RuleEngine.__init__ None) [sample_rule 2; sample_rule 10].

(** ** A session of the listener *)

Definition close_ok : CloseOracle := fun _ => Some (PDict [("success", PBool true)]).

(** A listener after start-up, with risk rules enabled and the sample
    configuration loaded. *)
Definition ready_listener : EventListener.t :=
  EventListener.setup_suite (EventListener.__init__ true)
    (RuleEngine.FileJson sample_config_doc) close_ok None.

(** A long position of [n] contracts at 24738.75. *)
Definition mnq_position (n : Z) : EventListener.RawPosition :=
  EventListener.mkRaw (Some "MNQ") (Some n) (Some 24738.75%Q) (Some 1).

(** The position opens with five contracts at time 9 and is closed by hand
    at time 10, which sets the marker. *)
Definition opened_listener : EventListener.t :=
  EventListener._on_position_updated ready_listener
    (EventListener.mkPositionEvent (mnq_position 5)) 9%float.

Definition closed_listener : EventListener.t :=
  EventListener._on_position_updated opened_listener
    (EventListener.mkPositionEvent (mnq_position 0)) 10%float.

(** A fill notified 0.8 after the manual close, while the broker still
    reports five contracts. *)
Definition late_fill : EventListener.FillEvent :=
  EventListener.mkFill
    (PDict [("order_id", PInt 1643278299);
            ("order_data", PDict [("side", PInt 0); ("type", PInt 2)])]).

Definition late_fill_oracle : EventListener.FillOracle :=
  EventListener.mkFillOracle
    10.7%float (EventListener.QueryReturns [Some (mnq_position 5)] None)
    10.8%float (EventListener.QueryReturns [Some (mnq_position 5)] None)
    10.8%float.

Definition late_risk_oracle : EventListener.RiskOracle :=
  EventListener.mkRiskOracle 10.8%float (EventListener.QueryReturns [Some (mnq_position 5)] None).

(** A connected listener whose cache was filled at time 1 with one contract. *)
Definition warm_listener : EventListener.t :=
  snd (EventListener._get_current_position_info ready_listener false 1%float
         (EventListener.QueryReturns [Some (mnq_position 1)] None)).

(** A position update reporting five contracts again. *)
Definition reopen_event : EventListener.PositionEvent :=
  EventListener.mkPositionEvent (mnq_position 5).



(** * Further observations *)

(** ** Events as the listener builds and receives them *)

(** The enriched event [_on_order_filled_with_risk_check] hands to the risk
    handler: the order payload, the snapshot just read, and the kind. *)
Definition enriched_event (order_event : pyval)
    (current_position : option EventListener.PositionInfo) : pyval :=
  PDict [("order_event", order_event);
         ("current_position",
          match current_position with
          | Some p => EventListener.position_to_py p
          | None => PNone
          end);
         ("event_type", PStr "order_filled")].

(** The order payload is a dict with a truthy [contractId] or [contract_id]. *)
Definition order_names_contract (order_event : pyval) : bool :=
  match order_event with
  | PDict items =>
      truthy (default PNone (assoc "contractId" items))
      || truthy (default PNone (assoc "contract_id" items))
  | _ => false
  end.

(** ** One fill, seen from outside *)

(** Whether the handler will find the fill stale, and the label it will give
    it otherwise. *)
Definition fill_is_stale (s : EventListener.t) (o : EventListener.FillOracle) : bool :=
  EventListener.is_stale_after_manual_close (snd (fill_reads s o))
    (EventListener.now_check o) (post_fill_snapshot s o).

Definition fill_label (s : EventListener.t) (o : EventListener.FillOracle) : string :=
  EventListener._classify_trade_action (fst (fst (fill_reads s o)))
    (post_fill_snapshot s o) "".

(** ** Runs of the listener *)

(** One handler run: a position update at a clock reading, a fill through
    the plain handler or through the wrapper, a P&L update. *)
Inductive ListenerInput : Type :=
| InPosition (ev : EventListener.PositionEvent) (now : float)
| InFill (ev : EventListener.FillEvent) (o : EventListener.FillOracle)
| InFillChecked (ev : EventListener.FillEvent) (o : EventListener.FillOracle)
    (r : EventListener.RiskOracle)
| InPnl (ev : EventListener.PnlEvent).

Definition step (s : EventListener.t) (i : ListenerInput) : EventListener.t :=
  match i with
  | InPosition ev now => EventListener._on_position_updated s ev now
  | InFill ev o => EventListener._on_order_filled s ev o
  | InFillChecked ev o r => EventListener._on_order_filled_with_risk_check s ev o r
  | InPnl ev => EventListener._on_position_pnl_update s ev
  end.

Definition run (s : EventListener.t) (inputs : list ListenerInput) : EventListener.t :=
  fold_left step inputs s.

(** How many inputs of each kind a run holds. *)
Definition is_fill (i : ListenerInput) : bool :=
  match i with InFill _ _ | InFillChecked _ _ _ => true | _ => false end.

Definition is_position (i : ListenerInput) : bool :=
  match i with InPosition _ _ => true | _ => false end.

Definition is_pnl (i : ListenerInput) : bool :=
  match i with InPnl _ => true | _ => false end.

Definition count_inputs (f : ListenerInput -> bool) (inputs : list ListenerInput) : nat :=
  length (List.filter f inputs).

(** A position update is read while the handler's own comparison, the
    binary64 difference of its reading and [t0] against the window, holds. *)
Definition inside_window (window t0 : float) (i : ListenerInput) : Prop :=
  match i with
  | InPosition _ now => (now - t0 <? window)%float = true
  | _ => True
  end.

(** The number of P&L blocks in a log. *)
Definition pnl_blocks (l : Log) : nat :=
  length (List.filter
            (fun e => match level e with
                      | INFO => String.eqb (text e) "P&L_UPDATE"
                      | _ => false
                      end) l).

(** A sequence of cache reads, each with its flag, clock reading and the
    answer the broker would give; the values returned and the final state. *)
Fixpoint run_reads (s : EventListener.t)
    (reads : list (bool * float * EventListener.QueryOutcome))
  : list (option EventListener.PositionInfo) * EventListener.t :=
  match reads with
  | [] => ([], s)
  | (force, now, answer) :: rest =>
      let '(v, s1) := EventListener._get_current_position_info s force now answer in
      let '(vs, s2) := run_reads s1 rest in
      (v :: vs, s2)
  end.

(** The broker reports no position (an empty list, or a falsy first
    element), or the query fails. *)
Definition shows_no_position (a : EventListener.QueryOutcome) : bool :=
  match a with
  | EventListener.QueryRaises => true
  | EventListener.QueryReturns [] _ => true
  | EventListener.QueryReturns (None :: _) _ => true
  | EventListener.QueryReturns (Some _ :: _) _ => false
  end.

(** ** Further sample inputs *)

(** An event object that carries its payload under [data], as the event bus
    delivers position updates to the risk handler. *)
Definition wrapped_position_event (n : Z) : pyval :=
  PObj [("type", PStr "position_updated");
        ("data", PDict [("contractId", PStr "MNQ"); ("size", PInt n)])].

(** A configuration document that enables the rule but leaves out its limit. *)
Definition incomplete_config_doc : pyval :=
  PDict [("rules", PDict [("max_contracts", PDict [("enabled", PBool true)])])].

(** A rule that closes the position on a breach. *)
Definition flattening_rule (m : Z) : MaxContractsRule.t :=
  MaxContractsRule.__init__
    (MaxContractsRule.mkConfig (PBool true) (PInt m) (PStr "high") (PBool true)).

(** A fill that turns a long position of two contracts into a short one of
    three, read at times 20 and 20.6. *)
Definition short_position (n : Z) : EventListener.RawPosition :=
  EventListener.mkRaw (Some "MNQ") (Some n) (Some 24738.75%Q) (Some 2).

Definition flip_oracle : EventListener.FillOracle :=
  EventListener.mkFillOracle
    20%float (EventListener.QueryReturns [Some (mnq_position 2)] None)
    20.6%float (EventListener.QueryReturns [Some (short_position 3)] None)
    20.6%float.

(** A fill that opens a position of five contracts on a flat account, and
    the forced read of the wrapper that follows it. *)
Definition oversize_oracle : EventListener.FillOracle :=
  EventListener.mkFillOracle
    20%float (EventListener.QueryReturns [] None)
    20.1%float (EventListener.QueryReturns [Some (mnq_position 5)] None)
    20.1%float.

Definition oversize_risk_oracle : EventListener.RiskOracle :=
  EventListener.mkRiskOracle 20.2%float
    (EventListener.QueryReturns [Some (mnq_position 5)] None).

(** A fill that opens a position of two contracts on a flat account. *)
Definition open_oracle : EventListener.FillOracle :=
  EventListener.mkFillOracle
    20%float (EventListener.QueryReturns [] None)
    20.1%float (EventListener.QueryReturns [Some (mnq_position 2)] None)
    20.1%float.

(** The settings no handler writes: the suite, the two durations, the risk
    switch and handler, and the set of action names that are counted. *)
Definition same_settings (s s' : EventListener.t) : Prop :=
  EventListener.suite s' = EventListener.suite s /\
  EventListener._cache_ttl s' = EventListener._cache_ttl s /\
  EventListener._ignore_reopen_window s' = EventListener._ignore_reopen_window s /\
  EventListener.enable_risk_rules s' = EventListener.enable_risk_rules s /\
  EventListener.risk_handler s' = EventListener.risk_handler s /\
  dom (EventListener._trade_actions s') = dom (EventListener._trade_actions s).

(** The log of [s'] continues the log of [s]. *)
Definition log_extends (s s' : EventListener.t) : Prop :=
  exists l, EventListener.log s' = EventListener.log s ++ l.

(** A run inside the window after the manual close of the sample session: a
    reopen at 11, the late fill through the wrapper, a flat update at 12,
    another reopen at 12.9 and a P&L update. *)
Definition sample_window_run : list ListenerInput :=
  [InPosition reopen_event 11%float;
   InFillChecked late_fill late_fill_oracle late_risk_oracle;
   InPosition (EventListener.mkPositionEvent (mnq_position 0)) 12%float;
   InPosition reopen_event 12.9%float;
   InPnl (EventListener.mkPnlEvent (EventListener.mkPnl (Some "MNQ") None None))].

(** A fill that closes a long position of two contracts. *)
Definition close_oracle : EventListener.FillOracle :=
  EventListener.mkFillOracle
    20%float (EventListener.QueryReturns [Some (mnq_position 2)] None)
    20.6%float (EventListener.QueryReturns [] None)
    20.6%float.

(** The entry [process_event] adds to [actions_taken] for a rule: one
    "auto_flatten_attempted" when the check fails and the rule has
    [auto_flatten] set. *)
Definition action_of (r : MaxContractsRule.t) (ev : pyval) (suite : Suite)
  : list RuleEngine.ActionTaken :=
  if negb (check_passed r ev suite)
     && truthy (MaxContractsRule.auto_flatten (MaxContractsRule.config r))
  then [RuleEngine.mkActionTaken "MaxContractsRule" "auto_flatten_attempted"]
  else [].

(** An engine with one rule of limit 2 that flattens on a breach. *)
Definition flattening_engine : RuleEngine.t :=
  RuleEngine.set_rules (RuleEngine.__init__ None) [flattening_rule 2].

(** * The trade-action classifier *)

Section Classifier.

Import EventListener.

Lemma classify_sound prev curr side :
  exists a, _classify_trade_action prev curr side = label a /\ Classifies prev curr a.
Proof.
  destruct prev as [p|], curr as [c|]; cbn [_classify_trade_action].
  - destruct (Z.eqb_spec (Z.abs (pi_size p)) 0) as [Hp|Hp];
      destruct (Z.ltb_spec 0 (Z.abs (pi_size c))) as [Hc|Hc]; cbn [andb].
    1: { exists Open; split; [reflexivity | now constructor]. }
    all: destruct (Z.eqb_spec (Z.abs (pi_size c)) 0) as [Hc0|Hc0];
      destruct (Z.ltb_spec 0 (Z.abs (pi_size p))) as [Hp0|Hp0]; cbn [andb];
      try (exists Close; split; [reflexivity | now constructor]).
    all: assert (Hz : ~ zero_case p c) by (unfold zero_case; lia).
    all: destruct (String.eqb_spec (pi_direction c) (pi_direction p)) as [Hd|Hd];
      cbn [negb];
      [ destruct (Z.ltb_spec (Z.abs (pi_size p)) (Z.abs (pi_size c)));
        [ exists Add; split; [reflexivity | now constructor]
        | destruct (Z.ltb_spec (Z.abs (pi_size c)) (Z.abs (pi_size p)));
          [ exists Reduce; split; [reflexivity | now constructor]
          | exists Adjust; split; [reflexivity | constructor; auto; lia] ] ]
      | exists Flip; split; [reflexivity | now constructor] ].
  - exists Close; split; [reflexivity | constructor].
  - exists Open; split; [reflexivity | constructor].
  - exists Unknown; split; [reflexivity | constructor].
Qed.

Lemma Classifies_functional prev curr a b :
  Classifies prev curr a -> Classifies prev curr b -> a = b.
Proof.
  intros Ha Hb.
  destruct Ha; inversion Hb; subst; try reflexivity;
    try (exfalso; unfold zero_case in *; lia);
    try congruence.
Qed.

Lemma label_injective a b : label a = label b -> a = b.
Proof. destruct a, b; cbn; intros H; try reflexivity; discriminate H. Qed.

(** C5. The classifier is a total function of the position pair: it always
    returns the string of exactly one of the seven labels, and that label is
    the one the decision table selects, taken in order: presence first, then
    zero sizes, then the size comparison within one direction (Add, Reduce,
    Adjust), then a change of direction (Flip), and Unknown otherwise.  It
    reads nothing but its arguments and writes nothing. *)
Theorem classify_total_decision_table :
  forall (prev curr : option PositionInfo) (side : string),
    exists a : TradeAction,
      _classify_trade_action prev curr side = label a /\
      Classifies prev curr a /\
      (forall b, _classify_trade_action prev curr side = label b -> b = a) /\
      (forall b, Classifies prev curr b -> b = a).
Proof.
  intros prev curr side.
  destruct (classify_sound prev curr side) as [a [Heq Hc]].
  exists a; repeat split; auto.
  - intros b Hb. apply label_injective. congruence.
  - intros b Hb. exact (Classifies_functional _ _ _ _ Hb Hc).
Qed.

(** C10. The order side plays no part in the classification: two calls on
    the same position pair agree whatever sides they are given. *)
Theorem classify_ignores_order_side :
  forall (prev curr : option PositionInfo) (s1 s2 : string),
    _classify_trade_action prev curr s1 = _classify_trade_action prev curr s2.
Proof.
  intros prev curr s1 s2. reflexivity.
Qed.

End Classifier.

(** * The max-position-size rule *)

Section MaxContracts.

Import MaxContractsRule.

Lemma handle_breach_counts r pd suite :
  let '(r', _, _) := _handle_breach r pd suite in
  _breach_count r' = S (_breach_count r) /\ config r' = config r.
Proof.
  unfold _handle_breach. cbn [config _breach_count].
  destruct (truthy (auto_flatten (config r))).
  - destruct (_auto_flatten _ pd suite). cbn. auto.
  - cbn. auto.
Qed.

Lemma check_disabled r ev suite :
  truthy (enabled (config r)) = false ->
  check_passed r ev suite = true /\ check_rule r ev suite = r.
Proof.
  intros H. unfold check_passed, check_rule, check. rewrite H. cbn. auto.
Qed.

Lemma check_enabled_cases r ev suite s m :
  truthy (enabled (config r)) = true ->
  event_size ev = Some s ->
  max_size (config r) = PInt m ->
  if m <? s
  then check_passed r ev suite = false /\
       _breach_count (check_rule r ev suite) = S (_breach_count r) /\
       config (check_rule r ev suite) = config r
  else check_passed r ev suite = true /\ check_rule r ev suite = r.
Proof.
  intros He Hs Hm. unfold event_size in Hs.
  destruct (extract_body ev) as [pd|] eqn:Hx; [|discriminate]. cbn in Hs.
  unfold check_passed, check_rule, check, _extract_position_data.
  rewrite He, Hx, Hs, Hm. cbn [negb int_gt].
  destruct (m <? s).
  - pose proof (handle_breach_counts r pd suite) as Hb.
    destruct (_handle_breach r pd suite) as [[r' l2] c2]. destruct Hb. auto.
  - auto.
Qed.

(** One check of the max-position-size rule, on an event from which
    [_extract_position_data] reads a size of magnitude [s]: a disabled rule
    passes and keeps its breach counter; an enabled rule with [s > max_size]
    reports a breach and its counter grows by exactly one; with
    [s <= max_size] it passes and the rule is unchanged. *)
Theorem check_max_size :
  forall (r : t) (ev : pyval) (suite : Suite),
    (truthy (enabled (config r)) = false ->
       check_passed r ev suite = true /\ check_rule r ev suite = r) /\
    (forall s m : Z,
       truthy (enabled (config r)) = true ->
       event_size ev = Some s ->
       max_size (config r) = PInt m ->
       (m < s ->
          check_passed r ev suite = false /\
          _breach_count (check_rule r ev suite) = S (_breach_count r)) /\
       (s <= m ->
          check_passed r ev suite = true /\
          _breach_count (check_rule r ev suite) = _breach_count r)).
Proof.
  intros r ev suite. split.
  - apply check_disabled.
  - intros s m He Hs Hm.
    pose proof (check_enabled_cases r ev suite s m He Hs Hm) as H.
    split; intros Hlt.
    + apply Z.ltb_lt in Hlt. rewrite Hlt in H. tauto.
    + apply Z.ltb_ge in Hlt. rewrite Hlt in H. destruct H as [Hp Hr].
      rewrite Hr. auto.
Qed.

(** The examples of the specification: limit 2 with size 5 breaches and
    counts one breach, limit 2 with size 2 passes, a disabled rule passes. *)
Lemma check_max_size_witness :
  (check_passed (sample_rule 2) (sample_position_event 5) None = false /\
   _breach_count (check_rule (sample_rule 2) (sample_position_event 5) None) = 1%nat) /\
  (check_passed (sample_rule 2) (sample_position_event 2) None = true /\
   _breach_count (check_rule (sample_rule 2) (sample_position_event 2) None) = 0%nat) /\
  (check_passed (disabled_rule 2) (sample_position_event 5) None = true /\
   check_rule (disabled_rule 2) (sample_position_event 5) None = disabled_rule 2).
Proof.
  split; [|split].
  - apply (proj2 (check_max_size (sample_rule 2) (sample_position_event 5) None) 5 2);
      [reflexivity | reflexivity | reflexivity | lia].
  - apply (proj2 (check_max_size (sample_rule 2) (sample_position_event 2) None) 2 2);
      [reflexivity | reflexivity | reflexivity | lia].
  - apply (proj1 (check_max_size (disabled_rule 2) (sample_position_event 5) None)).
    reflexivity.
Defined.

(** The listener hands the rule an enriched fill event whose position dict
    is keyed by [contract]; when the order payload carries no contract id of
    its own, the lookup of [contractId] raises, nothing is extracted, and the
    check passes whatever the size. *)
Lemma enriched_fill_without_contract_passes :
  let ev := PDict [("order_event", PDict [("order_id", PInt 1)]);
                   ("current_position", PDict [("contract", PStr "MNQ"); ("size", PInt 5)]);
                   ("event_type", PStr "order_filled")] in
  event_size ev = None /\
  check_passed (sample_rule 2) ev None = true.
Proof. cbv zeta. split; reflexivity. Qed.

End MaxContracts.

(** C6, evaluated on the source.  The rule is enabled with limit 2.  The
    event is the one [_on_order_filled_with_risk_check] builds for a fill:
    the order payload, which names no contract, and the snapshot just read,
    five contracts long, under [current_position].  The check passes and
    the breach counter stays at zero, where the claim has a breach and a
    counter of one: the snapshot is keyed [contract], the rule subscripts it
    with [contractId], the lookup raises and nothing is extracted.  In the
    session (limit 3) the engine checks its rule on that fill and detects
    no breach.  The event object of a position update, with fifty contracts
    in its payload, passes as well.  On the plain dict of the source's own
    self-test, five contracts against the same limit breach and count. *)
Theorem oversized_fill_passes_the_check :
  let snapshot := EventListener.snapshot_of (mnq_position 5) None in
  let ev := enriched_event (EventListener.fill_data late_fill) (Some snapshot) in
  let after :=
    EventListener._on_order_filled_with_risk_check ready_listener late_fill
      oversize_oracle oversize_risk_oracle in
  ev = PDict [("order_event",
               PDict [("order_id", PInt 1643278299);
                      ("order_data", PDict [("side", PInt 0); ("type", PInt 2)])]);
              ("current_position",
               PDict [("contract", PStr "MNQ"); ("size", PInt 5);
                      ("avg_price", PStr "$24738.75"); ("direction", PStr "LONG");
                      ("pnl", PNone)]);
              ("event_type", PStr "order_filled")] /\
  MaxContractsRule.config (sample_rule 2)
    = MaxContractsRule.mkConfig (PBool true) (PInt 2) (PStr "high") (PBool false) /\
  MaxContractsRule.check (sample_rule 2) ev None
    = (true, sample_rule 2,
       [mkLog DEBUG "MaxContractsRule: checking position against limit";
        mkLog ERROR "Failed to extract position data";
        mkLog WARNING "Could not extract position data from event"],
       []) /\
  MaxContractsRule._breach_count (check_rule (sample_rule 2) ev None) = 0%nat /\
  RuleEngine.stats <$> EventListener.rule_engine ready_listener
    = Some (RuleEngine.mkEngineStats 0 0 0) /\
  RuleEngine.rules <$> EventListener.rule_engine ready_listener
    = Some [sample_rule 3] /\
  RuleEngine.stats <$> EventListener.rule_engine after
    = Some (RuleEngine.mkEngineStats 1 1 0) /\
  RuleEngine.rules <$> EventListener.rule_engine after = Some [sample_rule 3] /\
  check_passed (sample_rule 2) (wrapped_position_event 50) None = true /\
  MaxContractsRule._breach_count
    (check_rule (sample_rule 2) (wrapped_position_event 50) None) = 0%nat /\
  check_passed (sample_rule 2) (sample_position_event 5) None = false /\
  MaxContractsRule._breach_count
    (check_rule (sample_rule 2) (sample_position_event 5) None) = 1%nat.
Proof. cbv zeta. repeat split. Qed.

(** * The rule engine *)

Section Engine.

Import RuleEngine.

Variable event_data : pyval.
Variable api_client : Suite.

Let chk_rule (r : MaxContractsRule.t) := check_rule r event_data api_client.
Let chk_log (r : MaxContractsRule.t) := check_log r event_data api_client.
Let chk_breach (r : MaxContractsRule.t) := breach_of r event_data api_client.

(** One turn of the loop, projection by projection. *)
Lemma loop_body_step acc r :
  let acc' := loop_body event_data api_client acc r in
  visited acc' = visited acc ++ [chk_rule r] /\
  res_rules_checked (loop_results acc') = S (res_rules_checked (loop_results acc)) /\
  breaches (loop_results acc') = breaches (loop_results acc) ++ chk_breach r /\
  loop_log acc' = loop_log acc ++ chk_log r /\
  events_processed (loop_stats acc') = events_processed (loop_stats acc) /\
  rules_checked (loop_stats acc') = S (rules_checked (loop_stats acc)) /\
  breaches_detected (loop_stats acc') =
    (breaches_detected (loop_stats acc) + length (chk_breach r))%nat.
Proof.
  unfold chk_rule, chk_log, chk_breach, breach_of, check_rule, check_log,
    check_passed, loop_body.
  destruct (MaxContractsRule.check r event_data api_client) as [[[passed r'] l] c].
  destruct passed; cbn; rewrite ?app_nil_r; repeat split; try lia.
Qed.

Lemma loop_fold rs : forall acc,
  let final := fold_left (loop_body event_data api_client) rs acc in
  visited final = visited acc ++ map chk_rule rs /\
  res_rules_checked (loop_results final) =
    (res_rules_checked (loop_results acc) + length rs)%nat /\
  breaches (loop_results final) = breaches (loop_results acc) ++ flat_map chk_breach rs /\
  loop_log final = loop_log acc ++ flat_map chk_log rs /\
  events_processed (loop_stats final) = events_processed (loop_stats acc) /\
  rules_checked (loop_stats final) = (rules_checked (loop_stats acc) + length rs)%nat /\
  breaches_detected (loop_stats final) =
    (breaches_detected (loop_stats acc) + length (flat_map chk_breach rs))%nat.
Proof.
  induction rs as [|r rs IH]; intros acc; cbn [fold_left map flat_map length].
  - rewrite !app_nil_r. repeat split; lia.
  - destruct (loop_body_step acc r) as (Hv & Hn & Hb & Hl & He & Hc & Hd).
    destruct (IH (loop_body event_data api_client acc r))
      as (Hv' & Hn' & Hb' & Hl' & He' & Hc' & Hd').
    cbn zeta in *.
    rewrite Hv', Hn', Hb', Hl', He', Hc', Hd', Hv, Hn, Hb, Hl, He, Hc, Hd.
    rewrite <- !app_assoc, length_app. cbn [app]. repeat split; lia.
Qed.

(** A call of [check] logs exactly one DEBUG record. *)
Lemma check_logs_one_debug r : check_invocations (chk_log r) = 1%nat.
Proof.
  unfold chk_log, check_log, MaxContractsRule.check,
    MaxContractsRule._extract_position_data, MaxContractsRule._handle_breach,
    MaxContractsRule._auto_flatten, MaxContractsRule._log_breach.
  destruct (truthy (MaxContractsRule.enabled _)); cbn [negb]; [|reflexivity].
  destruct (MaxContractsRule.extract_body event_data) as [pd|]; [|reflexivity].
  destruct (py_abs _) as [sz|]; [|reflexivity].
  destruct (int_gt _ _) as [[|]|]; try reflexivity.
  cbn [MaxContractsRule.config].
  destruct (truthy (MaxContractsRule.auto_flatten _)); [|reflexivity].
  destruct api_client as [close|]; [|reflexivity].
  destruct (close _) as [res|]; [|reflexivity].
  destruct (truthy res); [|reflexivity].
  destruct (dict_get res "success" PNone) as [ok|]; [|reflexivity].
  destruct (truthy ok); reflexivity.
Qed.

Lemma check_invocations_app l1 l2 :
  check_invocations (l1 ++ l2) = (check_invocations l1 + check_invocations l2)%nat.
Proof. unfold check_invocations. now rewrite List.filter_app, length_app. Qed.

Lemma check_invocations_flat_map rs :
  check_invocations (flat_map chk_log rs) = length rs.
Proof.
  induction rs as [|r rs IH]; [reflexivity|].
  cbn [flat_map length]. now rewrite check_invocations_app, check_logs_one_debug, IH.
Qed.

Lemma length_flat_map_breach rs :
  length (flat_map chk_breach rs) =
  length (List.filter (fun r => negb (check_passed r event_data api_client)) rs).
Proof.
  induction rs as [|r rs IH]; [reflexivity|].
  cbn [flat_map List.filter]. rewrite length_app, IH.
  unfold chk_breach, breach_of. destruct (check_passed r event_data api_client); reflexivity.
Qed.

(** C7. For an event of kind [position_updated] or [order_filled] the engine
    runs the check of every loaded rule exactly once, in order: the rules it
    holds afterwards are the loaded rules each after one check, and the log
    shows one check entry per rule.  The result counts as many rules checked
    as are loaded, and its breaches list is made of exactly one record per
    rule whose check did not pass, carrying the rule's class name and its
    stats taken after the check. *)
Theorem process_event_checks_every_rule :
  forall (e : t) (event_type : string),
    event_type = "position_updated" \/ event_type = "order_filled" ->
    res_rules_checked (engine_results e event_type event_data api_client)
      = length (rules e) /\
    rules (engine_after e event_type event_data api_client)
      = map (fun r => check_rule r event_data api_client) (rules e) /\
    check_invocations (engine_log e event_type event_data api_client)
      = length (rules e) /\
    breaches (engine_results e event_type event_data api_client)
      = flat_map (fun r => breach_of r event_data api_client) (rules e) /\
    length (breaches (engine_results e event_type event_data api_client))
      = length (List.filter (fun r => negb (check_passed r event_data api_client)) (rules e)).
Proof.
  intros e event_type Hty.
  assert (Hk : risk_evaluable event_type = true) by (destruct Hty; subst; reflexivity).
  unfold engine_results, engine_after, engine_log, process_event.
  rewrite Hk. cbn [negb].
  match goal with
  | |- context [fold_left ?f ?rs ?a] =>
      destruct (loop_fold rs a) as (Hv & Hn & Hb & Hl & _)
  end.
  cbn zeta in *. cbn [rules].
  rewrite Hv, Hn, Hb, Hl. cbn [visited loop_results res_rules_checked breaches loop_log].
  repeat split.
  - rewrite check_invocations_app, check_invocations_flat_map. reflexivity.
  - cbn [app]. apply length_flat_map_breach.
Qed.

(** Whatever its kind, a processed event is counted once. *)
Lemma process_event_counts_event (e : t) (event_type : string) :
  events_processed (stats (engine_after e event_type event_data api_client))
    = S (events_processed (stats e)).
Proof.
  unfold engine_after, process_event.
  destruct (risk_evaluable event_type); cbn [negb]; [|reflexivity].
  match goal with
  | |- context [fold_left ?f ?rs ?a] =>
      destruct (loop_fold rs a) as (_ & _ & _ & _ & He & _)
  end.
  cbn zeta in He. cbn [stats]. rewrite He. reflexivity.
Qed.

(** For a risk-evaluable kind, every loaded rule adds one to the engine's
    count of rules checked. *)
Lemma process_event_counts_rules (e : t) (event_type : string) :
  event_type = "position_updated" \/ event_type = "order_filled" ->
  rules_checked (stats (engine_after e event_type event_data api_client))
    = (rules_checked (stats e) + length (rules e))%nat.
Proof.
  intros Hty.
  assert (Hk : risk_evaluable event_type = true) by (destruct Hty; subst; reflexivity).
  unfold engine_after, process_event. rewrite Hk. cbn [negb].
  match goal with
  | |- context [fold_left ?f ?rs ?a] =>
      destruct (loop_fold rs a) as (_ & _ & _ & _ & _ & Hc & _)
  end.
  cbn zeta in Hc. cbn [stats]. rewrite Hc. reflexivity.
Qed.

End Engine.

(** The example of the specification: two enabled rules, one of them
    breaching, give two rules checked and one breach record. *)
Lemma process_event_checks_every_rule_witness :
  RuleEngine.res_rules_checked
    (engine_results two_rule_engine "position_updated" (sample_position_event 5) None) = 2%nat /\
  length (RuleEngine.breaches
    (engine_results two_rule_engine "position_updated" (sample_position_event 5) None)) = 1%nat.
Proof.
  destruct (process_event_checks_every_rule (sample_position_event 5) None
              two_rule_engine "position_updated" (or_introl eq_refl))
    as (Hn & _ & _ & _ & Hb).
  split; [exact Hn | exact Hb].
Defined.

(** * Loading the configuration *)

Section Config.

Import RuleEngine.

(** The default configuration enables no rule: initialising from it adds
    nothing and raises nothing. *)
Lemma initialize_rules_default e :
  _initialize_rules (set_config e default_config) = Some (set_config e default_config, []).
Proof. reflexivity. Qed.

Lemma load_config_fallback e file :
  falls_back file = true ->
  fst (_load_config e file) = set_config e default_config /\
  snd (_load_config e file) =
    [match file with
     | FileMissing => mkLog WARNING "Config file not found"
     | _ => mkLog ERROR "Failed to load config"
     end].
Proof. destruct file; cbn; intros H; try discriminate; auto. Qed.

(** Loading the configuration does not raise: [_load_config] always hands
    a state back.  With a missing file it logs a warning, with a malformed
    one an error, and in both cases it installs the default
    [{"rules": {}, "global": {"dry_run": True}}]; [initialize] then succeeds
    and adds no rule, which leaves the rules the engine held: none for a
    newly built engine. *)
Lemma load_config_falls_back :
  forall (e : t) (file : ConfigFile),
    falls_back file = true ->
    let fallback :=
      PDict [("rules", PDict []); ("global", PDict [("dry_run", PBool true)])] in
    (exists lvl txt,
       _load_config e file = (set_config e fallback, [mkLog lvl txt]) /\
       lvl = match file with FileMissing => WARNING | _ => ERROR end) /\
    (exists l, initialize e file = Some (set_config e fallback, l) /\
               rules (set_config e fallback) = rules e) /\
    (forall path, exists e' l,
       initialize (__init__ path) file = Some (e', l) /\
       rules e' = [] /\ config e' = fallback).
Proof.
  intros e file Hf. destruct file; try discriminate; cbn.
  - repeat split; eauto.
  - repeat split; eauto.
Qed.

(** C8, evaluated on the source.  The engine is initialised from a document
    that enables the max-contracts rule, which loads one rule; the file is
    then missing (or unparsable) when [reload_config] runs.  The reload
    does not raise, logs the warning (the error), and installs the default
    [{"rules": {}, "global": {"dry_run": True}}]; but the rule loaded
    before is still in the engine's list, where the claim has zero loaded
    rules, and the engine goes on checking it: an update of five contracts
    is still reported as a breach.  A newly built engine that meets the same
    missing file ends with no rule. *)
Theorem reload_with_missing_file_keeps_rules :
  exists e1 l1 e2 e3 e0 l0,
    initialize (__init__ None) (FileJson sample_config_doc) = Some (e1, l1) /\
    rules e1 = [sample_rule 3] /\
    reload_config e1 FileMissing
      = Some (e2, [mkLog INFO "Reloading risk configuration...";
                   mkLog WARNING "Config file not found"]) /\
    reload_config e1 FileMalformed
      = Some (e3, [mkLog INFO "Reloading risk configuration...";
                   mkLog ERROR "Failed to load config"]) /\
    config e2 = PDict [("rules", PDict []); ("global", PDict [("dry_run", PBool true)])] /\
    rules e2 = [sample_rule 3] /\
    config e3 = PDict [("rules", PDict []); ("global", PDict [("dry_run", PBool true)])] /\
    rules e3 = [sample_rule 3] /\
    RuleEngine.res_rules_checked
      (engine_results e2 "position_updated" (sample_position_event 5) None) = 1%nat /\
    length (RuleEngine.breaches
              (engine_results e2 "position_updated" (sample_position_event 5) None))
      = 1%nat /\
    initialize (__init__ None) FileMissing = Some (e0, l0) /\
    config e0 = PDict [("rules", PDict []); ("global", PDict [("dry_run", PBool true)])] /\
    rules e0 = [].
Proof.
  do 6 eexists. repeat split.
Qed.

(** A document that enables the rule makes [_initialize_rules] append one
    instance to whatever the engine already holds. *)
Lemma initialize_rules_appends e :
  config e = sample_config_doc ->
  exists r l, _initialize_rules e = Some (set_rules e (rules e ++ [r]), l).
Proof.
  intros H. unfold _initialize_rules. rewrite H. cbn. eauto.
Qed.

(** C4, evaluated on the source.  With a configuration that enables the
    max-contracts rule, [initialize] followed by one [reload_config] leaves
    two instances of that single rule in the engine, and every further
    reload adds one more: the rule list is never emptied. *)
Theorem reload_accumulates_rules :
  exists e1 l1 e2 l2 e3 l3,
    initialize (__init__ None) (FileJson sample_config_doc) = Some (e1, l1) /\
    reload_config e1 (FileJson sample_config_doc) = Some (e2, l2) /\
    reload_config e2 (FileJson sample_config_doc) = Some (e3, l3) /\
    length (rules e1) = 1%nat /\
    length (rules e2) = 2%nat /\
    length (rules e3) = 3%nat /\
    rules e2 = [sample_rule 3; sample_rule 3].
Proof.
  do 6 eexists. repeat split.
Qed.

(** The same holds from any engine: a reload with an enabling document
    makes the rule list one longer. *)
Lemma reload_grows_rules e :
  exists e' l,
    reload_config e (FileJson sample_config_doc) = Some (e', l) /\
    length (rules e') = S (length (rules e)).
Proof.
  unfold reload_config, _load_config.
  destruct (initialize_rules_appends (set_config e sample_config_doc) eq_refl)
    as (r & l & H).
  rewrite H. do 2 eexists. split; [reflexivity|].
  cbn [rules set_rules set_config]. rewrite length_app. cbn [length]. lia.
Qed.

(** Hence, over any sequence of [initialize] and [reload_config] calls, the
    engine ends with as many instances of the one enabled rule as calls
    were made. *)
Lemma run_ops_grows_rules ops : forall e,
  exists e',
    run_ops (FileJson sample_config_doc) e ops = Some e' /\
    length (rules e') = (length (rules e) + length ops)%nat.
Proof.
  induction ops as [|op ops IH]; intros e; cbn [run_ops length].
  - exists e. split; [reflexivity | lia].
  - assert (Hop : exists e1, run_op (FileJson sample_config_doc) e op = Some e1 /\
                             length (rules e1) = S (length (rules e))).
    { destruct op; unfold run_op.
      - unfold initialize, _load_config.
        destruct (initialize_rules_appends (set_config e sample_config_doc) eq_refl)
          as (r & l & H).
        rewrite H. eexists. split; [reflexivity|].
        cbn [fst rules set_rules set_config]. rewrite length_app. cbn [length]. lia.
      - destruct (reload_grows_rules e) as (e1 & l & H & Hlen).
        rewrite H. exists e1. split; [reflexivity | exact Hlen]. }
    destruct Hop as (e1 & H1 & Hlen1). rewrite H1. cbn.
    destruct (IH e1) as (e' & H' & Hlen'). exists e'. split; [exact H' | lia].
Qed.

(** A parsable document that enables the rule but omits [max_size] is not a
    fallback case: [_initialize_rules] raises and so does [initialize]. *)
Lemma initialize_raises_on_missing_key :
  initialize (__init__ None)
    (FileJson (PDict [("rules",
       PDict [("max_contracts", PDict [("enabled", PBool true)])])])) = None.
Proof. reflexivity. Qed.

End Config.

(** * The position snapshot cache *)

Section Cache.

Import EventListener.

Lemma position_queries_called s :
  position_queries (called s [GetAllPositions]) = S (position_queries s).
Proof.
  unfold position_queries. cbn [calls called].
  rewrite List.filter_app, length_app. cbn. lia.
Qed.

(** A hit hands the cached value back and touches nothing. *)
Lemma read_hit s now answer :
  suite s = true -> cache_hit s false now = true ->
  _get_current_position_info s false now answer = (_position_cache s, s).
Proof.
  intros Hs Hh. unfold _get_current_position_info. now rewrite Hs, Hh.
Qed.

Lemma cache_hit_fresh s p now :
  _position_cache s = Some p ->
  (now - _cache_timestamp s <? _cache_ttl s)%float = true ->
  cache_hit s false now = true.
Proof.
  intros Hc Hlt. unfold cache_hit. now rewrite Hc, Hlt.
Qed.

Lemma cache_hit_expired s force now :
  (now - _cache_timestamp s <? _cache_ttl s)%float = false ->
  cache_hit s force now = false.
Proof.
  intros Hlt. unfold cache_hit. rewrite Hlt. now rewrite andb_false_r.
Qed.

(** A miss answered with positions stores the first one, stamped [now]. *)
Lemma read_miss_position s force now pos rest pnl :
  suite s = true -> cache_hit s force now = false ->
  _get_current_position_info s force now (QueryReturns (Some pos :: rest) pnl) =
    (Some (snapshot_of pos pnl),
     set_cache (called s [GetAllPositions]) (Some (snapshot_of pos pnl)) now).
Proof.
  intros Hs Hh. unfold _get_current_position_info. now rewrite Hs, Hh.
Qed.

(** A miss answered with no position stores [None], stamped [now]. *)
Lemma read_miss_flat s force now pnl :
  suite s = true -> cache_hit s force now = false ->
  _get_current_position_info s force now (QueryReturns [] pnl) =
    (None, set_cache (called s [GetAllPositions]) None now).
Proof.
  intros Hs Hh. unfold _get_current_position_info. now rewrite Hs, Hh.
Qed.

(** So does a miss whose first position is falsy. *)
Lemma read_miss_falsy s force now rest pnl :
  suite s = true -> cache_hit s force now = false ->
  _get_current_position_info s force now (QueryReturns (None :: rest) pnl) =
    (None, set_cache (called s [GetAllPositions]) None now).
Proof.
  intros Hs Hh. unfold _get_current_position_info. now rewrite Hs, Hh.
Qed.

(** A miss whose query raises returns [None]; the cache keeps its entry. *)
Lemma read_miss_raises s force now :
  suite s = true -> cache_hit s force now = false ->
  _get_current_position_info s force now QueryRaises =
    (None, emit (called s [GetAllPositions])
             [mkLog WARNING "Could not fetch position info"]).
Proof.
  intros Hs Hh. unfold _get_current_position_info. now rewrite Hs, Hh.
Qed.

(** What the cache does with a stored position.  When the first of two
    reads without forced refresh performs a live query that returns a
    position, and the age the second read computes is below the TTL, both
    return that position and exactly one query reaches the broker.  A live
    query that succeeds stores what it returns, stamped with the current
    reading.  A stored position is served, with no query, while its computed
    age is below the TTL, and once it is not, the read queries the broker
    again and replaces the entry. *)
Lemma stored_position_is_served_until_expiry :
  forall (s : t),
    suite s = true ->
    (forall now1 now2 a2 pos rest pnl,
       cache_hit s false now1 = false ->
       (now2 - now1 <? _cache_ttl s)%float = true ->
       let r1 := _get_current_position_info s false now1
                   (QueryReturns (Some pos :: rest) pnl) in
       let r2 := _get_current_position_info (snd r1) false now2 a2 in
       fst r1 = Some (snapshot_of pos pnl) /\
       fst r2 = fst r1 /\
       position_queries (snd r2) = S (position_queries s)) /\
    (forall force now positions pnl,
       cache_hit s force now = false ->
       let r := _get_current_position_info s force now (QueryReturns positions pnl) in
       _position_cache (snd r) = fst r /\
       _cache_timestamp (snd r) = now) /\
    (forall p now answer,
       _position_cache s = Some p ->
       (now - _cache_timestamp s <? _cache_ttl s)%float = true ->
       _get_current_position_info s false now answer = (Some p, s)) /\
    (forall force now pos rest pnl,
       (now - _cache_timestamp s <? _cache_ttl s)%float = false ->
       let r := _get_current_position_info s force now
                  (QueryReturns (Some pos :: rest) pnl) in
       fst r = Some (snapshot_of pos pnl) /\
       _position_cache (snd r) = Some (snapshot_of pos pnl) /\
       _cache_timestamp (snd r) = now /\
       position_queries (snd r) = S (position_queries s)).
Proof.
  intros s Hs. split; [|split; [|split]].
  - intros now1 now2 a2 pos rest pnl Hmiss Hlt r1 r2. subst r1 r2.
    rewrite (read_miss_position s false now1 pos rest pnl Hs Hmiss). cbn [fst snd].
    rewrite read_hit.
    + cbn [fst snd _position_cache set_cache]. repeat split.
      change (position_queries (called s [GetAllPositions]) = S (position_queries s)).
      apply position_queries_called.
    + exact Hs.
    + eapply cache_hit_fresh; [reflexivity|]. exact Hlt.
  - intros force now positions pnl Hmiss r. subst r.
    destruct positions as [|[pos|] rest].
    + rewrite (read_miss_flat s force now pnl Hs Hmiss). cbn. auto.
    + rewrite (read_miss_position s force now pos rest pnl Hs Hmiss). cbn. auto.
    + rewrite (read_miss_falsy s force now rest pnl Hs Hmiss). cbn. auto.
  - intros p now answer Hc Hlt.
    rewrite read_hit; [now rewrite Hc | exact Hs | eapply cache_hit_fresh; eauto].
  - intros force now pos rest pnl Hexp r. subst r.
    rewrite (read_miss_position s force now pos rest pnl Hs
               (cache_hit_expired s force now Hexp)).
    cbn [fst snd _position_cache _cache_timestamp set_cache]. repeat split.
    change (position_queries (called s [GetAllPositions]) = S (position_queries s)).
    apply position_queries_called.
Qed.

End Cache.

(** C3, evaluated on the source.  The listener is connected and the broker
    reports no position.  The first read, at time 1, queries the broker and
    stores "no position" stamped 1.  The second read comes 0.1 later, which
    the handler's own subtraction and comparison find below the TTL of 0.5,
    and with no forced refresh; it is not served from the cache: it queries
    the broker again, so the two reads make two queries where the claim has
    one.  The same holds when the broker's list opens with a falsy element. *)
Theorem flat_account_is_queried_every_time :
  let r1 := EventListener._get_current_position_info ready_listener false 1%float
              (EventListener.QueryReturns [] None) in
  let r2 := EventListener._get_current_position_info (snd r1) false 1.1%float
              (EventListener.QueryReturns [] None) in
  let q1 := EventListener._get_current_position_info ready_listener false 1%float
              (EventListener.QueryReturns [None] None) in
  let q2 := EventListener._get_current_position_info (snd q1) false 1.1%float
              (EventListener.QueryReturns [None] None) in
  EventListener.suite ready_listener = true /\
  EventListener._cache_ttl ready_listener = 0.5%float /\
  position_queries ready_listener = 0%nat /\
  fst r1 = None /\
  EventListener._position_cache (snd r1) = None /\
  EventListener._cache_timestamp (snd r1) = 1%float /\
  position_queries (snd r1) = 1%nat /\
  (1.1 - EventListener._cache_timestamp (snd r1)
     <? EventListener._cache_ttl (snd r1))%float = true /\
  fst r2 = None /\
  position_queries (snd r2) = 2%nat /\
  position_queries (snd q1) = 1%nat /\
  EventListener._position_cache (snd q1) = None /\
  position_queries (snd q2) = 2%nat.
Proof. cbv zeta. repeat split. Qed.

Section CacheFailure.

Import EventListener.

(** C9, as the source has it.  When the broker query of a cache read fails,
    nothing is raised to the caller: the read logs one warning and returns
    "absent", whatever the cache holds; the cached value and its timestamp
    stay as they were. *)
Theorem failed_query_returns_absent :
  forall (s : t) (force : bool) (now : float),
    suite s = true ->
    cache_hit s force now = false ->
    let r := _get_current_position_info s force now QueryRaises in
    fst r = None /\
    log (snd r) = log s ++ [mkLog WARNING "Could not fetch position info"] /\
    _position_cache (snd r) = _position_cache s /\
    _cache_timestamp (snd r) = _cache_timestamp s /\
    position_queries (snd r) = S (position_queries s).
Proof.
  intros s force now Hs Hmiss r. subst r.
  rewrite (read_miss_raises s force now Hs Hmiss). cbn [fst snd].
  repeat split.
  apply (position_queries_called s).
Qed.

End CacheFailure.

Lemma failed_query_returns_absent_witness :
  let r := EventListener._get_current_position_info warm_listener false 2%float
             EventListener.QueryRaises in
  fst r = None /\
  EventListener.log (snd r) =
    EventListener.log warm_listener ++ [mkLog WARNING "Could not fetch position info"] /\
  EventListener._position_cache (snd r) = EventListener._position_cache warm_listener /\
  EventListener._cache_timestamp (snd r) = EventListener._cache_timestamp warm_listener /\
  position_queries (snd r) = S (position_queries warm_listener).
Proof.
  apply (failed_query_returns_absent warm_listener false 2%float); reflexivity.
Defined.

(** C9 as stated fails: the warm cache holds a position, known since time 1;
    a read at time 2 whose query fails returns "absent", not that value. *)
Lemma failed_query_drops_known_value :
  let r := EventListener._get_current_position_info warm_listener false 2%float
             EventListener.QueryRaises in
  EventListener._position_cache warm_listener
    = Some (EventListener.snapshot_of (mnq_position 1) None) /\
  fst r = None /\
  fst r <> EventListener._position_cache warm_listener.
Proof.
  cbv zeta. split; [reflexivity|]. split; [reflexivity|].
  intros H. vm_compute in H. discriminate H.
Qed.

(** * The reconciliation handlers *)

Section Handlers.

Import EventListener.

(** A cache read leaves the tracking state alone and only ever adds the
    warning of a failed query to the log. *)
Lemma read_frame s force now answer :
  let s' := snd (_get_current_position_info s force now answer) in
  same_tracking s s' /\
  event_counts s' = event_counts s /\
  exists l, log s' = log s ++ l /\ Forall (fun x => x = fetch_warning) l.
Proof.
  unfold _get_current_position_info, same_tracking.
  destruct (negb (suite s)); [|destruct (cache_hit s force now)].
  1,2: cbn; repeat split; exists []; rewrite app_nil_r; auto.
  destruct answer as [|[|[pos|] rest] pnl]; cbn; repeat split.
  - exists [fetch_warning]. auto.
  - exists []. rewrite app_nil_r. auto.
  - exists []. rewrite app_nil_r. auto.
  - exists []. rewrite app_nil_r. auto.
Qed.

Lemma within_window_tracking s s' now :
  same_tracking s s' -> within_window s' now = within_window s now.
Proof.
  intros (_ & _ & Hm & Hw & _). unfold within_window. now rewrite Hm, Hw.
Qed.

Lemma within_window_true s now t0 :
  _position_flat_timestamp s = Some t0 -> (t0 =? 0)%float = false ->
  (now - t0 <? _ignore_reopen_window s)%float = true ->
  within_window s now = true.
Proof.
  intros Hm Hnz Hlt. unfold within_window, float_truthy. now rewrite Hm, Hnz, Hlt.
Qed.

Lemma within_window_elapsed s now t0 :
  _position_flat_timestamp s = Some t0 ->
  (now - t0 <? _ignore_reopen_window s)%float = false ->
  within_window s now = false.
Proof.
  intros Hm Hle. unfold within_window. rewrite Hm, Hle. apply andb_false_r.
Qed.

(** A marker that stands at zero is falsy: the window test fails whatever
    the reading. *)
Lemma within_window_zero_marker s now t0 :
  _position_flat_timestamp s = Some t0 -> (t0 =? 0)%float = true ->
  within_window s now = false.
Proof.
  intros Hm Hz. unfold within_window, float_truthy. now rewrite Hm, Hz.
Qed.

(** The two reads of the fill handler, taken together. *)
Lemma fill_reads_frame s o :
  let s3 := snd (fill_reads s o) in
  same_tracking s s3 /\
  exists l, log s3 = log s ++ l /\ Forall (fun x => x = fetch_warning) l.
Proof.
  unfold fill_reads.
  set (s1 := set_event_counts s (count_fill (event_counts s))).
  pose proof (read_frame s1 false (now_prev o) (answer_prev o)) as H2.
  destruct (_get_current_position_info s1 false (now_prev o) (answer_prev o)) as [prev s2].
  pose proof (read_frame s2 false (now_curr o) (answer_curr o)) as H3.
  destruct (_get_current_position_info s2 false (now_curr o) (answer_curr o)) as [cur s3].
  cbn [snd] in *.
  destruct H2 as (T2 & _ & l2 & L2 & F2), H3 as (T3 & _ & l3 & L3 & F3).
  split.
  - unfold same_tracking in *. subst s1. cbn in T2.
    destruct T2 as (?&?&?&?&?&?&?&?), T3 as (?&?&?&?&?&?&?&?).
    repeat split; congruence.
  - exists (l2 ++ l3). split.
    + rewrite L3, L2. subst s1. cbn. now rewrite app_assoc.
    + apply Forall_app. auto.
Qed.

Lemma on_order_filled_reads s ev o :
  _on_order_filled s ev o =
  let '(prev, cur, s3) := fill_reads s o in
  if is_stale_after_manual_close s3 (now_check o) cur then
    emit (set_stale_filtered s3 (S (_stale_executions_filtered s3))) stale_records
  else _on_order_filled s ev o.
Proof.
  unfold _on_order_filled, fill_reads.
  destruct (_get_current_position_info _ false (now_prev o) (answer_prev o)) as [prev s2].
  destruct (_get_current_position_info s2 false (now_curr o) (answer_curr o)) as [cur s3].
  destruct (is_stale_after_manual_close s3 (now_check o) cur); reflexivity.
Qed.

(** The handler on a stale fill: what it leaves behind. *)
Lemma on_order_filled_stale s ev o p :
  within_window s (now_check o) = true ->
  post_fill_snapshot s o = Some p -> pi_size p <> 0 ->
  let s' := _on_order_filled s ev o in
  same_tracking s (set_stale_filtered s' (_stale_executions_filtered s)) /\
  _stale_executions_filtered s' = S (_stale_executions_filtered s) /\
  exists l, log s' = log s ++ l ++ stale_records /\
            Forall (fun x => x = fetch_warning) l.
Proof.
  intros Hw Hsnap Hsz. cbv zeta. rewrite on_order_filled_reads.
  unfold post_fill_snapshot in Hsnap.
  pose proof (fill_reads_frame s o) as Hfr.
  destruct (fill_reads s o) as [[prev cur] s3]. cbn [fst snd] in *. subst cur.
  destruct Hfr as (T & l & L & F).
  unfold is_stale_after_manual_close.
  rewrite (within_window_tracking s s3 _ T), Hw. cbn [andb].
  replace (0 <? Z.abs (pi_size p)) with true by (symmetry; apply Z.ltb_lt; lia).
  unfold same_tracking in *. destruct T as (?&?&?&?&Hst&?&?&?). cbn.
  repeat split; try assumption.
  - now rewrite Hst.
  - exists l. rewrite L. now rewrite app_assoc.
Qed.

(** The wrapper touches the cache, the engine and the traces only. *)
Lemma risk_check_frame s ev o r :
  let s1 := _on_order_filled s ev o in
  let s2 := _on_order_filled_with_risk_check s ev o r in
  _trade_actions s2 = _trade_actions s1 /\
  _last_confirmed_position s2 = _last_confirmed_position s1 /\
  _position_flat_timestamp s2 = _position_flat_timestamp s1 /\
  _ignore_reopen_window s2 = _ignore_reopen_window s1 /\
  _stale_executions_filtered s2 = _stale_executions_filtered s1.
Proof.
  cbv zeta. unfold _on_order_filled_with_risk_check.
  set (s1 := _on_order_filled s ev o).
  destruct (enable_risk_rules s1); [|repeat split].
  destruct (risk_handler s1) as [h|]; [|repeat split].
  pose proof (read_frame s1 true (now_risk r) (answer_risk r)) as Hf.
  destruct (_get_current_position_info s1 true (now_risk r) (answer_risk r)) as [cp s2].
  cbn [snd] in Hf. destruct Hf as ((?&?&?&?&?&?&?&?) & _).
  destruct (rule_engine s2) as [e|].
  - destruct (RiskEventHandler.on_order_filled h e _) as [[e' l] c]. cbn.
    repeat split; assumption.
  - cbn. repeat split; assumption.
Qed.

(** With risk rules enabled the wrapper hands every fill to the engine. *)
Lemma risk_check_reaches_engine s ev o r h e :
  enable_risk_rules s = true -> risk_handler s = Some h -> rule_engine s = Some e ->
  same_tracking s (set_stale_filtered (_on_order_filled s ev o) (_stale_executions_filtered s)) ->
  events_seen_by_engine (_on_order_filled_with_risk_check s ev o r)
    = S (events_seen_by_engine s) /\
  rules_checked_by_engine (_on_order_filled_with_risk_check s ev o r)
    = (rules_checked_by_engine s + length (RuleEngine.rules e))%nat.
Proof.
  intros He Hh Hr T. unfold _on_order_filled_with_risk_check.
  set (s1 := _on_order_filled s ev o) in *.
  destruct T as (_ & _ & _ & _ & _ & Te & Th & Ten). cbn in Te, Th, Ten.
  rewrite Ten, He, Th, Hh.
  pose proof (read_frame s1 true (now_risk r) (answer_risk r)) as Hf.
  destruct (_get_current_position_info s1 true (now_risk r) (answer_risk r)) as [cp s2].
  cbn [snd] in Hf. destruct Hf as ((_&_&_&_&_&Te2&_&_) & _).
  rewrite Te2, Te, Hr.
  unfold RiskEventHandler.on_order_filled.
  match goal with
  | |- context [RuleEngine.process_event e ?ty ?d ?a] =>
      pose proof (process_event_counts_event d a e ty) as Hc;
      pose proof (process_event_counts_rules d a e ty (or_intror eq_refl)) as Hk;
      unfold engine_after in Hc, Hk;
      destruct (RuleEngine.process_event e ty d a) as [[[res e'] l1] c1]
  end.
  unfold events_seen_by_engine at 2. unfold rules_checked_by_engine at 2. rewrite Hr.
  destruct (RuleEngine.breaches res).
  - cbn. split; [exact Hc | exact Hk].
  - destruct (RiskEventHandler.report_breaches h _ _). cbn. split; [exact Hc | exact Hk].
Qed.

(** C1, as the source has it.  A fill is stale when the manual-close marker
    is set to a reading other than zero, the elapsed time the handler
    computes (the binary64 difference between the reading at the staleness
    test and the marker) is less than the suppression window, and the
    snapshot read after the fill shows a non-zero size.  On such a fill the
    handler [_on_order_filled] adds one to the stale counter, ends its log
    with the stale-execution records and stops: the per-action counters, the
    rule engine, the marker and the confirmed position are as before.  The
    wrapper [_on_order_filled_with_risk_check] keeps all of that too, except
    for the engine: when risk rules are enabled it hands the fill to the
    engine, which counts one more processed event and one more check for
    each rule it holds. *)
Theorem stale_fill_is_filtered :
  forall (s : t) (ev : FillEvent) (o : FillOracle) (r : RiskOracle)
         (t0 : float) (p : PositionInfo),
    _position_flat_timestamp s = Some t0 ->
    (t0 =? 0)%float = false ->
    (now_check o - t0 <? _ignore_reopen_window s)%float = true ->
    post_fill_snapshot s o = Some p ->
    pi_size p <> 0 ->
    let s' := _on_order_filled s ev o in
    let s'' := _on_order_filled_with_risk_check s ev o r in
    (_stale_executions_filtered s' = S (_stale_executions_filtered s) /\
     (exists l, log s' = log s ++ l ++ stale_records /\
                Forall (fun x => x = fetch_warning) l) /\
     _trade_actions s' = _trade_actions s /\
     rule_engine s' = rule_engine s /\
     _position_flat_timestamp s' = Some t0 /\
     _last_confirmed_position s' = _last_confirmed_position s) /\
    (_stale_executions_filtered s'' = S (_stale_executions_filtered s) /\
     _trade_actions s'' = _trade_actions s /\
     _position_flat_timestamp s'' = Some t0 /\
     _last_confirmed_position s'' = _last_confirmed_position s /\
     (forall h e,
        enable_risk_rules s = true -> risk_handler s = Some h -> rule_engine s = Some e ->
        events_seen_by_engine s'' = S (events_seen_by_engine s) /\
        rules_checked_by_engine s''
          = (rules_checked_by_engine s + length (RuleEngine.rules e))%nat)).
Proof.
  intros s ev o r t0 p Hm Hnz Hlt Hsnap Hsz s' s''.
  pose proof (within_window_true s (now_check o) t0 Hm Hnz Hlt) as Hw.
  destruct (on_order_filled_stale s ev o p Hw Hsnap Hsz) as (T & Hc & Hl).
  fold s' in T, Hc, Hl.
  pose proof (risk_check_frame s ev o r) as Hf. cbv zeta in Hf. fold s' s'' in Hf.
  destruct Hf as (Fa & Fc & Fm & _ & Fs).
  pose proof T as T'.
  destruct T as (Ta & Tc & Tm & _ & _ & Te & _ & _). cbn in Ta, Tc, Tm, Te.
  split.
  - repeat split; try assumption. congruence.
  - do 4 (split; [congruence|]).
    intros h e He Hh Hr. subst s' s''.
    eapply risk_check_reaches_engine; eauto.
Qed.

(** The position-update handler around the marker.  A position update of
    non-zero size read while the marker is set to a reading other than zero
    and the computed elapsed time is below the suppression window is
    suppressed: the confirmed position is not written, the marker and the
    window are as before, and the ghost-reopen warning is logged.  Once the
    computed elapsed time is not below the window, or when the marker stands
    at zero, the update is not suppressed: the confirmed position becomes
    the decoded payload (contract, size, direction name, price to two
    decimals or "unknown" for a zero price), the marker still unchanged. *)
Lemma reopen_is_suppressed_inside_window :
  forall (s : t) (ev : PositionEvent) (now t0 : float),
    _position_flat_timestamp s = Some t0 ->
    default 0 (raw_size (position_data ev)) <> 0 ->
    let s' := _on_position_updated s ev now in
    let price := default 0%Q (raw_averagePrice (position_data ev)) in
    let written :=
      {| cp_contract := default "unknown" (raw_contractId (position_data ev));
         cp_size := default 0 (raw_size (position_data ev));
         cp_direction := _decode_position_type (default 0 (raw_type (position_data ev)));
         cp_avg_price := if Qeq_bool price 0 then "unknown"
                         else ("$" ++ format_2f false price)%string |} in
    ((t0 =? 0)%float = false ->
     (now - t0 <? _ignore_reopen_window s)%float = true ->
       _last_confirmed_position s' = _last_confirmed_position s /\
       _position_flat_timestamp s' = Some t0 /\
       _ignore_reopen_window s' = _ignore_reopen_window s /\
       log s' = log s ++ ghost_records) /\
    ((t0 =? 0)%float = true \/ (now - t0 <? _ignore_reopen_window s)%float = false ->
       _last_confirmed_position s' = Some written /\
       _position_flat_timestamp s' = Some t0 /\
       _ignore_reopen_window s' = _ignore_reopen_window s /\
       exists l, log s' = log s ++ l /\ Forall (fun x => level x = INFO) l).
Proof.
  intros s ev now t0 Hm Hsz s' price written. subst s'. unfold _on_position_updated.
  set (s1 := set_event_counts s (count_position (event_counts s))).
  assert (Hne : (default 0 (raw_size (position_data ev)) =? 0) = false)
    by now apply Z.eqb_neq.
  rewrite Hne. cbn [andb negb].
  assert (Hw1 : forall n, within_window s1 n = within_window s n) by reflexivity.
  assert (Hwr : confirmed_of (position_data ev) = written).
  { subst written price. unfold confirmed_of.
    destruct (Qeq_bool (default 0%Q (raw_averagePrice (position_data ev))) 0);
      reflexivity. }
  split.
  - intros Hnz Hlt. rewrite Hw1, (within_window_true s now t0 Hm Hnz Hlt). cbn.
    repeat split. exact Hm.
  - intros Hout.
    assert (Hw : within_window s now = false).
    { destruct Hout as [Hz | Hle];
        [exact (within_window_zero_marker s now t0 Hm Hz)
        | exact (within_window_elapsed s now t0 Hm Hle)]. }
    rewrite Hw1, Hw.
    match goal with
    | |- context [within_window ?x now] =>
        replace (within_window x now) with (within_window s now) by reflexivity
    end.
    rewrite Hw, Hwr. cbn [negb].
    destruct (enable_risk_rules _) eqn:E; cbn; repeat split; try exact Hm.
    + exists []. rewrite app_nil_r. auto.
    + eexists. split; [reflexivity|]. repeat constructor.
Qed.

End Handlers.

(** * The sample session *)

(** The scenario of the specification: the marker stands at time 10 with
    the confirmed position flat; the late fill is examined at 10.8 while the
    snapshot shows five contracts. *)
Lemma stale_fill_is_filtered_witness :
  let s' := EventListener._on_order_filled closed_listener late_fill late_fill_oracle in
  let s'' := EventListener._on_order_filled_with_risk_check closed_listener late_fill
               late_fill_oracle late_risk_oracle in
  (EventListener._stale_executions_filtered s'
     = S (EventListener._stale_executions_filtered closed_listener) /\
   (exists l, EventListener.log s'
                = EventListener.log closed_listener ++ l ++ EventListener.stale_records /\
              Forall (fun x => x = fetch_warning) l) /\
   EventListener._trade_actions s' = EventListener._trade_actions closed_listener /\
   EventListener.rule_engine s' = EventListener.rule_engine closed_listener /\
   EventListener._position_flat_timestamp s' = Some 10%float /\
   EventListener._last_confirmed_position s'
     = EventListener._last_confirmed_position closed_listener) /\
  (EventListener._stale_executions_filtered s''
     = S (EventListener._stale_executions_filtered closed_listener) /\
   EventListener._trade_actions s'' = EventListener._trade_actions closed_listener /\
   EventListener._position_flat_timestamp s'' = Some 10%float /\
   EventListener._last_confirmed_position s''
     = EventListener._last_confirmed_position closed_listener /\
   (forall h e,
      EventListener.enable_risk_rules closed_listener = true ->
      EventListener.risk_handler closed_listener = Some h ->
      EventListener.rule_engine closed_listener = Some e ->
      events_seen_by_engine s'' = S (events_seen_by_engine closed_listener) /\
      rules_checked_by_engine s''
        = (rules_checked_by_engine closed_listener + length (RuleEngine.rules e))%nat)).
Proof.
  apply (stale_fill_is_filtered closed_listener late_fill late_fill_oracle
           late_risk_oracle 10%float (EventListener.snapshot_of (mnq_position 5) None)).
  - reflexivity.
  - reflexivity.
  - reflexivity.
  - reflexivity.
  - vm_compute. discriminate.
Defined.

(** C1 as stated fails on its last-but-one clause.  The late fill is stale
    (marker at 10, examined at 10.8, snapshot of five contracts) and is
    counted as such; the wrapper still passes it to the rule engine, which
    had processed nothing before and now has processed one event and run
    its one rule on it. *)
Lemma stale_fill_reaches_rule_engine :
  let s'' := EventListener._on_order_filled_with_risk_check closed_listener late_fill
               late_fill_oracle late_risk_oracle in
  EventListener._position_flat_timestamp closed_listener = Some 10%float /\
  (EventListener.now_check late_fill_oracle - 10
     <? EventListener._ignore_reopen_window closed_listener)%float = true /\
  post_fill_snapshot closed_listener late_fill_oracle
    = Some (EventListener.snapshot_of (mnq_position 5) None) /\
  EventListener._stale_executions_filtered s'' = 1%nat /\
  events_seen_by_engine closed_listener = 0%nat /\
  events_seen_by_engine s'' = 1%nat /\
  rules_checked_by_engine closed_listener = 0%nat /\
  rules_checked_by_engine s'' = 1%nat.
Proof. cbv zeta. repeat split. Qed.


(** * More on the max-position-size rule *)

Section MaxContractsMore.

Import MaxContractsRule.

(** What [check] returns and the rule it leaves, spelled out without the
    suite: the suite only feeds the traces. *)
Lemma check_outcome r ev suite :
  (check_passed r ev suite, check_rule r ev suite) =
  if negb (truthy (enabled (config r))) then (true, r)
  else match event_size ev with
       | None => (true, r)
       | Some current_size =>
           match int_gt current_size (max_size (config r)) with
           | Some true => (false, {| config := config r;
                                     _breach_count := S (_breach_count r) |})
           | _ => (true, r)
           end
       end.
Proof.
  unfold check_passed, check_rule, check, event_size, _extract_position_data.
  destruct (negb (truthy (enabled (config r)))); [reflexivity|].
  destruct (extract_body ev) as [pd|]; [|reflexivity]. cbn [mbind option_bind].
  destruct (py_abs (size pd)) as [sz|]; [|reflexivity].
  destruct (int_gt sz (max_size (config r))) as [[|]|]; try reflexivity.
  unfold _handle_breach. cbn [config].
  destruct (truthy (auto_flatten (config r))); [|reflexivity].
  destruct (_auto_flatten _ pd suite). reflexivity.
Qed.

Lemma check_verdict_ignores_mitigation_helper r ev suite1 suite2 :
  check_passed r ev suite1 = check_passed r ev suite2 /\
  check_rule r ev suite1 = check_rule r ev suite2.
Proof.
  pose proof (check_outcome r ev suite1) as H1.
  pose proof (check_outcome r ev suite2) as H2.
  rewrite <- H2 in H1. injection H1 as Hp Hr. auto.
Qed.

(** X1. The outcome of a check does not depend on the mitigation: whatever
    object is passed as trading suite, and whatever closing the position
    answers or raises, the same verdict comes back and the rule is left in
    the same state. *)
Theorem check_verdict_ignores_mitigation :
  forall (r : t) (ev : pyval) (suite1 suite2 : Suite),
    check_passed r ev suite1 = check_passed r ev suite2 /\
    check_rule r ev suite1 = check_rule r ev suite2.
Proof.
  intros r ev suite1 suite2.
  destruct (check_verdict_ignores_mitigation_helper r ev suite1 suite2) as [Hp Hr].
  split; [exact Hp | exact Hr].
Qed.

Lemma check_calls_cases r ev suite :
  check_calls r ev suite = [] \/
  exists cid close,
    check_calls r ev suite = [ClosePositionDirect cid] /\
    check_passed r ev suite = false /\
    truthy (auto_flatten (config r)) = true /\
    suite = Some close.
Proof.
  unfold check_calls, check_passed, check, _extract_position_data.
  destruct (negb (truthy (enabled (config r)))); [left; reflexivity|].
  destruct (extract_body ev) as [pd|]; [|left; reflexivity].
  destruct (py_abs (size pd)) as [sz|]; [|left; reflexivity].
  destruct (int_gt sz (max_size (config r))) as [[|]|]; try (left; reflexivity).
  unfold _handle_breach. cbn [config].
  destruct (truthy (auto_flatten (config r))) eqn:Ha; [|left; reflexivity].
  unfold _auto_flatten. destruct suite as [close|]; [|left; reflexivity].
  right. exists (contract_id pd), close. repeat split.
Qed.

(** X2. The breach counter counts the failed checks and nothing else: a
    check that passes leaves the rule untouched and calls nothing; one that
    fails adds exactly one to the counter and keeps the configuration.  At
    most one close-position call is made per check, and only on a breach of
    a rule with [auto_flatten] set that was given a suite. *)
Theorem check_counts_failed_checks :
  forall (r : t) (ev : pyval) (suite : Suite),
    (if check_passed r ev suite
     then check_rule r ev suite = r /\ check_calls r ev suite = []
     else _breach_count (check_rule r ev suite) = S (_breach_count r) /\
          config (check_rule r ev suite) = config r) /\
    (check_calls r ev suite = [] \/
     exists cid close,
       check_calls r ev suite = [ClosePositionDirect cid] /\
       check_passed r ev suite = false /\
       truthy (auto_flatten (config r)) = true /\
       suite = Some close).
Proof.
  intros r ev suite. split; [|apply check_calls_cases].
  pose proof (check_outcome r ev suite) as H.
  assert (Hcases :
    (check_passed r ev suite = true /\ check_rule r ev suite = r) \/
    (check_passed r ev suite = false /\
     check_rule r ev suite = {| config := config r;
                                _breach_count := S (_breach_count r) |})).
  { destruct (negb (truthy (enabled (config r)))); [injection H as Hp Hr; auto|].
    destruct (event_size ev) as [sz|]; [|injection H as Hp Hr; auto].
    destruct (int_gt sz (max_size (config r))) as [[|]|];
      injection H as Hp Hr; auto. }
  destruct Hcases as [[Hp Hr] | [Hp Hr]]; rewrite Hp.
  - split; [exact Hr|].
    destruct (check_calls_cases r ev suite) as [Hc | (cid & close & _ & Hf & _)];
      [exact Hc | congruence].
  - rewrite Hr. cbn. auto.
Qed.

(** An event object without [position], [new_position] and [size]
    attributes is read as size zero, whatever it carries elsewhere. *)
Lemma object_event_size attrs :
  assoc "position" attrs = None ->
  assoc "new_position" attrs = None ->
  assoc "size" attrs = None ->
  event_size (PObj attrs) = Some 0.
Proof.
  intros Hp Hn Hs. unfold event_size, extract_body.
  cbn [isinstance_dict andb mbind option_bind]. unfold getattr.
  rewrite Hp, Hn. cbn [or_else truthy mbind option_bind]. rewrite Hs.
  destruct (truthy _); cbn [mbind option_bind];
    destruct (truthy _); reflexivity.
Qed.

(** A size of zero passes every rule whose limit is a non-negative integer. *)
Lemma zero_size_passes r ev suite m :
  event_size ev = Some 0 -> max_size (config r) = PInt m -> 0 <= m ->
  check_passed r ev suite = true /\ check_rule r ev suite = r.
Proof.
  intros Hs Hm Hle. pose proof (check_outcome r ev suite) as H.
  rewrite Hs, Hm in H. cbn [int_gt] in H.
  replace (m <? 0) with false in H by (symmetry; apply Z.ltb_ge; lia).
  destruct (negb _); injection H as Hp Hr; auto.
Qed.

(** X3. An event object that keeps its payload under another attribute
    (no [position], [new_position] or [size] attribute of its own) is read
    as a position of size zero: it passes every rule whose limit is a
    non-negative integer, whatever size the payload holds. *)
Theorem object_event_always_passes :
  forall (r : t) (attrs : list (string * pyval)) (suite : Suite) (m : Z),
    assoc "position" attrs = None ->
    assoc "new_position" attrs = None ->
    assoc "size" attrs = None ->
    max_size (config r) = PInt m ->
    0 <= m ->
    event_size (PObj attrs) = Some 0 /\
    check_passed r (PObj attrs) suite = true /\
    check_rule r (PObj attrs) suite = r.
Proof.
  intros r attrs suite m Hp Hn Hs Hm Hle.
  pose proof (object_event_size attrs Hp Hn Hs) as Hz.
  split; [exact Hz|]. exact (zero_size_passes r _ suite m Hz Hm Hle).
Qed.

Lemma enriched_event_size oe p :
  event_size (enriched_event oe (Some p)) =
  if order_names_contract oe then Some (Z.abs (EventListener.pi_size p)) else None.
Proof.
  unfold event_size, extract_body, enriched_event, order_names_contract.
  destruct oe as [| b | z | str | items | attrs]; try reflexivity.
  cbn -[or_else Z.abs truthy].
  change (truthy (EventListener.position_to_py p)) with true.
  unfold default. cbn [from_option id].
  set (c1 := match assoc "contractId" items with Some x => x | None => PNone end).
  set (c2 := match assoc "contract_id" items with Some x => x | None => PNone end).
  set (a1 := match assoc "accountId" items with Some x => x | None => PNone end).
  set (a2 := match assoc "account_id" items with Some x => x | None => PNone end).
  unfold or_else.
  destruct (truthy c1), (truthy c2), (truthy a1), (truthy a2);
    cbn -[Z.abs]; rewrite ?Z.abs_idemp; reflexivity.
Qed.

(** X4. What the rule reads from the enriched event of a fill.  The size of
    the listener's snapshot is extracted only when the order payload is a
    dict with a truthy [contractId] or [contract_id]; otherwise the lookup
    of [contractId] in the snapshot, which is keyed by [contract], raises,
    nothing is extracted and the check passes whatever the size and the
    limit.  With no snapshot at all the event is read as size zero. *)
Theorem enriched_fill_needs_contract_id :
  forall (r : t) (oe : pyval) (p : EventListener.PositionInfo) (suite : Suite),
    event_size (enriched_event oe (Some p)) =
      (if order_names_contract oe then Some (Z.abs (EventListener.pi_size p)) else None) /\
    event_size (enriched_event oe None) = Some 0 /\
    (order_names_contract oe = false ->
       check_passed r (enriched_event oe (Some p)) suite = true /\
       check_rule r (enriched_event oe (Some p)) suite = r).
Proof.
  intros r oe p suite. split; [apply enriched_event_size|]. split.
  - unfold event_size, extract_body, enriched_event. cbn. reflexivity.
  - intros Hn. pose proof (check_outcome r (enriched_event oe (Some p)) suite) as H.
    rewrite enriched_event_size, Hn in H.
    destruct (negb _); injection H as Hp Hr; auto.
Qed.

End MaxContractsMore.

Lemma object_event_always_passes_witness :
  event_size (wrapped_position_event 50) = Some 0 /\
  check_passed (sample_rule 2) (wrapped_position_event 50) None = true /\
  check_rule (sample_rule 2) (wrapped_position_event 50) None = sample_rule 2.
Proof.
  apply (object_event_always_passes (sample_rule 2) _ None 2);
    [reflexivity | reflexivity | reflexivity | reflexivity | lia].
Defined.

Lemma enriched_fill_needs_contract_id_witness :
  check_passed (sample_rule 2)
    (enriched_event (EventListener.fill_data late_fill)
       (Some (EventListener.snapshot_of (mnq_position 5) None))) None = true /\
  check_rule (sample_rule 2)
    (enriched_event (EventListener.fill_data late_fill)
       (Some (EventListener.snapshot_of (mnq_position 5) None))) None = sample_rule 2.
Proof.
  apply (proj2 (proj2 (enriched_fill_needs_contract_id (sample_rule 2)
           (EventListener.fill_data late_fill)
           (EventListener.snapshot_of (mnq_position 5) None) None))).
  reflexivity.
Defined.

(** * More on the engine and its handler *)

Section EngineMore.

Import RuleEngine.

Variable event_data : pyval.
Variable api_client : Suite.

Lemma loop_body_calls acc r :
  loop_calls (loop_body event_data api_client acc r)
    = loop_calls acc ++ check_calls r event_data api_client.
Proof.
  unfold check_calls, loop_body.
  destruct (MaxContractsRule.check r event_data api_client) as [[[passed r'] l] c].
  destruct passed; reflexivity.
Qed.

Lemma loop_fold_calls rs : forall acc,
  loop_calls (fold_left (loop_body event_data api_client) rs acc)
    = loop_calls acc ++ flat_map (fun r => check_calls r event_data api_client) rs.
Proof.
  induction rs as [|r rs IH]; intros acc; cbn [fold_left flat_map].
  - now rewrite app_nil_r.
  - rewrite IH, loop_body_calls. now rewrite app_assoc.
Qed.

(** The whole of [process_event] for an evaluable kind, by projection. *)
Lemma process_event_evaluable e event_type :
  risk_evaluable event_type = true ->
  let '(res, e', l, c) := process_event e event_type event_data api_client in
  rules e' = map (fun r => check_rule r event_data api_client) (rules e) /\
  config e' = config e /\ config_path e' = config_path e /\
  res_rules_checked res = length (rules e) /\
  breaches res = flat_map (fun r => breach_of r event_data api_client) (rules e) /\
  c = flat_map (fun r => check_calls r event_data api_client) (rules e) /\
  events_processed (stats e') = S (events_processed (stats e)) /\
  rules_checked (stats e') = (rules_checked (stats e) + length (rules e))%nat /\
  breaches_detected (stats e') =
    (breaches_detected (stats e)
     + length (flat_map (fun r => breach_of r event_data api_client) (rules e)))%nat.
Proof.
  intros Hk. unfold process_event. rewrite Hk. cbn [negb].
  match goal with
  | |- context [fold_left ?f ?rs ?a] =>
      pose proof (loop_fold event_data api_client rs a) as Hf;
      pose proof (loop_fold_calls rs a) as Hc
  end.
  cbv zeta in Hf. destruct Hf as (Hv & Hn & Hb & _ & He & Hr & Hd).
  cbn [visited loop_results loop_stats loop_calls res_rules_checked breaches
       events_processed rules_checked breaches_detected app] in *.
  cbn [rules config config_path stats].
  rewrite Hv, Hn, Hb, Hc, He, Hr, Hd. repeat split.
Qed.

Lemma process_event_other e event_type :
  risk_evaluable event_type = false ->
  process_event e event_type event_data api_client =
    (mkResults event_type 0 [] [],
     set_stats e (mkEngineStats (S (events_processed (stats e)))
                    (rules_checked (stats e)) (breaches_detected (stats e))),
     [mkLog INFO "RuleEngine processing event"], []).
Proof. intros Hk. unfold process_event. now rewrite Hk. Qed.

(** X5. The session counters of the engine add up, for an event of any
    kind: one more event processed; the count of rules checked grows by the
    number reported in the result, which is the number of loaded rules for
    [position_updated] and [order_filled] and zero for any other kind; the
    count of breaches grows by the length of the breaches list.  The
    configuration and the number of rules are unchanged. *)
Theorem engine_counters_add_up :
  forall (e : t) (event_type : string),
    let '(res, e', _, _) := process_event e event_type event_data api_client in
    events_processed (stats e') = S (events_processed (stats e)) /\
    rules_checked (stats e') = (rules_checked (stats e) + res_rules_checked res)%nat /\
    breaches_detected (stats e') = (breaches_detected (stats e) + length (breaches res))%nat /\
    res_rules_checked res = (if risk_evaluable event_type then length (rules e) else 0%nat) /\
    config e' = config e /\
    length (rules e') = length (rules e).
Proof.
  intros e event_type. destruct (risk_evaluable event_type) eqn:Hk.
  - pose proof (process_event_evaluable e event_type Hk) as H.
    destruct (process_event e event_type event_data api_client) as [[[res e'] l] c].
    destruct H as (Hr & Hc & _ & Hn & Hb & _ & He & Hrc & Hd).
    rewrite Hr, Hn, Hb, length_map. repeat split; assumption.
  - rewrite (process_event_other e event_type Hk). cbn. repeat split; lia.
Qed.

Lemma check_rule_grows r :
  MaxContractsRule.config (check_rule r event_data api_client) = MaxContractsRule.config r /\
  (MaxContractsRule._breach_count r
   <= MaxContractsRule._breach_count (check_rule r event_data api_client))%nat.
Proof.
  pose proof (check_outcome r event_data api_client) as H.
  destruct (negb _); [injection H as _ ->; auto|].
  destruct (event_size event_data); [|injection H as _ ->; auto].
  destruct (int_gt _ _) as [[|]|]; injection H as _ ->; cbn; auto.
Qed.

(** X6. Rules are only ever touched by their own check: after an event of
    any kind the engine holds the same rules in the same order, each with
    its configuration unchanged and a breach counter that has not gone
    down. *)
Theorem rule_breach_counters_never_decrease :
  forall (e : t) (event_type : string),
    let '(_, e', _, _) := process_event e event_type event_data api_client in
    Forall2 (fun r r' =>
               MaxContractsRule.config r' = MaxContractsRule.config r /\
               (MaxContractsRule._breach_count r
                <= MaxContractsRule._breach_count r')%nat)
            (rules e) (rules e').
Proof.
  intros e event_type. destruct (risk_evaluable event_type) eqn:Hk.
  - pose proof (process_event_evaluable e event_type Hk) as H.
    destruct (process_event e event_type event_data api_client) as [[[res e'] l] c].
    destruct H as (Hr & _). rewrite Hr. clear Hr.
    generalize (rules e). intros rs.
    induction rs as [|r rs IH]; cbn [map]; constructor;
      [apply check_rule_grows | exact IH].
  - rewrite (process_event_other e event_type Hk). cbn [rules set_stats].
    generalize (rules e). intros rs.
    induction rs as [|r rs IH]; constructor; [split; [reflexivity | lia] | exact IH].
Qed.

(** When every loaded rule passes, the loop changes no rule, reports no
    breach and makes no call. *)
Lemma all_rules_pass rs :
  Forall (fun r => check_passed r event_data api_client = true) rs ->
  map (fun r => check_rule r event_data api_client) rs = rs /\
  flat_map (fun r => breach_of r event_data api_client) rs = [] /\
  flat_map (fun r => check_calls r event_data api_client) rs = [].
Proof.
  induction 1 as [|r rs Hp _ IH]; [repeat split|].
  destruct IH as (Hm & Hb & Hc). cbn [map flat_map]. rewrite Hm, Hb, Hc.
  pose proof (check_outcome r event_data api_client) as Ho.
  destruct (check_calls_cases r event_data api_client)
    as [Hcalls | (cid & close & _ & Hf & _)]; [|congruence].
  rewrite Hcalls. unfold breach_of. rewrite Hp. cbn [app].
  repeat split. f_equal.
  rewrite Hp in Ho.
  destruct (negb _); [injection Ho as Hr; exact Hr|].
  destruct (event_size event_data); [|injection Ho as Hr; exact Hr].
  destruct (int_gt _ _) as [[|]|]; try (injection Ho as Hr; exact Hr).
  discriminate Ho.
Qed.

End EngineMore.

Section HandlerMore.

Import RuleEngine.

Lemma handlers_when_all_pass h e event :
  Forall (fun r => check_passed r event (RiskEventHandler.api_client h) = true) (rules e) ->
  (let '(e', _, c) := RiskEventHandler.on_order_filled h e event in
   rules e' = rules e /\ c = [] /\
   breaches_detected (stats e') = breaches_detected (stats e)) /\
  (let '(e', _, c) := RiskEventHandler.on_position_updated h e event in
   rules e' = rules e /\ c = [] /\
   breaches_detected (stats e') = breaches_detected (stats e)).
Proof.
  intros Hall.
  destruct (all_rules_pass event (RiskEventHandler.api_client h) (rules e) Hall)
    as (Hm & Hb & Hc).
  split.
  - unfold RiskEventHandler.on_order_filled.
    pose proof (process_event_evaluable event (RiskEventHandler.api_client h) e
                  "order_filled" eq_refl) as H.
    destruct (process_event e "order_filled" event _) as [[[res e'] l] c].
    destruct H as (Hr & _ & _ & _ & Hbr & Hcl & _ & _ & Hd).
    rewrite Hb in Hbr, Hd. rewrite Hbr. rewrite Hr, Hm, Hcl, Hc, Hd.
    cbn [length]. repeat split. lia.
  - unfold RiskEventHandler.on_position_updated.
    pose proof (process_event_evaluable event (RiskEventHandler.api_client h) e
                  "position_updated" eq_refl) as H.
    destruct (process_event e "position_updated" event _) as [[[res e'] l] c].
    destruct H as (Hr & _ & _ & _ & Hbr & Hcl & _ & _ & Hd).
    rewrite Hb in Hbr, Hd. rewrite Hbr. rewrite Hr, Hm, Hcl, Hc, Hd.
    cbn [length]. repeat split. lia.
Qed.

(** X7. An event that every loaded rule passes is a no-op for the rules and
    the broker: through [on_order_filled] as through [on_position_updated]
    the engine keeps its rules as they were, counts no breach, and no
    close-position call is made. *)
Theorem passing_event_makes_no_call :
  forall (h : RiskEventHandler.t) (e : t) (event : pyval),
    Forall (fun r => check_passed r event (RiskEventHandler.api_client h) = true) (rules e) ->
    (let '(e', _, c) := RiskEventHandler.on_order_filled h e event in
     rules e' = rules e /\ c = [] /\
     breaches_detected (stats e') = breaches_detected (stats e)) /\
    (let '(e', _, c) := RiskEventHandler.on_position_updated h e event in
     rules e' = rules e /\ c = [] /\
     breaches_detected (stats e') = breaches_detected (stats e)).
Proof.
  intros h e event Hall.
  apply handlers_when_all_pass. exact Hall.
Qed.

(** X8. A position update delivered as an event object, with its payload
    under [data] and no [position], [new_position] or [size] attribute of
    its own, never breaches: when every loaded rule has a non-negative
    integer limit, [on_position_updated] reports no breach, leaves the rules
    as they were and closes nothing, whatever size the payload holds. *)
Theorem wrapped_position_update_never_breaches :
  forall (h : RiskEventHandler.t) (e : t) (attrs : list (string * pyval)),
    assoc "position" attrs = None ->
    assoc "new_position" attrs = None ->
    assoc "size" attrs = None ->
    Forall (fun r => exists m,
              MaxContractsRule.max_size (MaxContractsRule.config r) = PInt m /\ 0 <= m)
           (rules e) ->
    let '(e', _, c) := RiskEventHandler.on_position_updated h e (PObj attrs) in
    rules e' = rules e /\ c = [] /\
    breaches_detected (stats e') = breaches_detected (stats e).
Proof.
  intros h e attrs Hp Hn Hs Hall.
  refine (proj2 (handlers_when_all_pass h e (PObj attrs) _)).
  induction Hall as [|r rs (m & Hm & Hle) _ IH]; constructor; [|exact IH].
  exact (proj1 (zero_size_passes r _ _ m (object_event_size attrs Hp Hn Hs) Hm Hle)).
Qed.

End HandlerMore.

Lemma passing_event_makes_no_call_witness :
  (let '(e', _, c) :=
     RiskEventHandler.on_order_filled (RiskEventHandler.__init__ (Some close_ok) None)
       two_rule_engine (sample_position_event 1) in
   RuleEngine.rules e' = RuleEngine.rules two_rule_engine /\ c = [] /\
   RuleEngine.breaches_detected (RuleEngine.stats e')
     = RuleEngine.breaches_detected (RuleEngine.stats two_rule_engine)) /\
  (let '(e', _, c) :=
     RiskEventHandler.on_position_updated (RiskEventHandler.__init__ (Some close_ok) None)
       two_rule_engine (sample_position_event 1) in
   RuleEngine.rules e' = RuleEngine.rules two_rule_engine /\ c = [] /\
   RuleEngine.breaches_detected (RuleEngine.stats e')
     = RuleEngine.breaches_detected (RuleEngine.stats two_rule_engine)).
Proof.
  apply (passing_event_makes_no_call (RiskEventHandler.__init__ (Some close_ok) None)
           two_rule_engine (sample_position_event 1)).
  repeat constructor.
Defined.

Lemma wrapped_position_update_never_breaches_witness :
  let '(e', _, c) :=
    RiskEventHandler.on_position_updated (RiskEventHandler.__init__ (Some close_ok) None)
      two_rule_engine (wrapped_position_event 50) in
  RuleEngine.rules e' = RuleEngine.rules two_rule_engine /\ c = [] /\
  RuleEngine.breaches_detected (RuleEngine.stats e')
    = RuleEngine.breaches_detected (RuleEngine.stats two_rule_engine).
Proof.
  apply (wrapped_position_update_never_breaches
           (RiskEventHandler.__init__ (Some close_ok) None) two_rule_engine
           [("type", PStr "position_updated");
            ("data", PDict [("contractId", PStr "MNQ"); ("size", PInt 50)])]);
    try reflexivity.
  repeat constructor; eexists; (split; [reflexivity | lia]).
Defined.

(** * More on the configuration and the cache *)

Section ConfigMore.

Import RuleEngine.

(** X9. How [_initialize_rules] reads the configuration.  A configuration
    that is not a dict makes it raise.  For a dict whose [rules] section
    holds a [max_contracts] dict: when [enabled] is missing or falsy nothing
    is loaded and nothing is logged; when it is truthy and [max_size] and
    [severity] are present, exactly one rule is appended, with those values,
    with [auto_flatten] defaulting to [False] and a breach counter of zero;
    when it is truthy and [max_size] or [severity] is missing, the lookup
    raises and no rule is added. *)
Theorem initialize_rules_reads_section :
  forall (e : t),
    (isinstance_dict (config e) = false -> _initialize_rules e = None) /\
    (forall c rs m,
       config e = PDict c ->
       assoc "rules" c = Some (PDict rs) ->
       assoc "max_contracts" rs = Some (PDict m) ->
       _initialize_rules e =
         if truthy (default (PBool false) (assoc "enabled" m)) then
           match assoc "enabled" m, assoc "max_size" m, assoc "severity" m with
           | Some en, Some ms, Some sv =>
               Some (set_rules e
                       (rules e ++
                        [MaxContractsRule.mkRule
                           (MaxContractsRule.mkConfig en ms sv
                              (default (PBool false) (assoc "auto_flatten" m)))
                           0]),
                     [mkLog INFO "Enabled MaxContractsRule"])
           | _, _, _ => None
           end
         else Some (e, [])).
Proof.
  intros e. split.
  - intros Hd. unfold _initialize_rules.
    destruct (config e); try discriminate Hd; reflexivity.
  - intros c rs m Hc Hr Hm. unfold _initialize_rules. rewrite Hc.
    cbn [dict_get mbind option_bind]. rewrite Hr.
    cbn [dict_get mbind option_bind]. rewrite Hm.
    cbn [dict_get mbind option_bind subscript]. rewrite Hm.
    cbn [mbind option_bind subscript dict_get]. unfold default. cbn [from_option id].
    destruct (assoc "enabled" m) as [en|]; [|reflexivity].
    destruct (truthy en); [|reflexivity].
    cbn [mbind option_bind].
    destruct (assoc "max_size" m) as [ms|]; [|reflexivity].
    cbn [mbind option_bind].
    destruct (assoc "severity" m) as [sv|]; reflexivity.
Qed.

End ConfigMore.

Lemma initialize_rules_reads_section_witness :
  RuleEngine._initialize_rules (RuleEngine.set_config (RuleEngine.__init__ None) (PInt 3))
    = None /\
  RuleEngine._initialize_rules
    (RuleEngine.set_config (RuleEngine.__init__ None) sample_config_doc)
    = Some (RuleEngine.set_rules
              (RuleEngine.set_config (RuleEngine.__init__ None) sample_config_doc)
              [sample_rule 3],
            [mkLog INFO "Enabled MaxContractsRule"]) /\
  RuleEngine._initialize_rules
    (RuleEngine.set_config (RuleEngine.__init__ None) incomplete_config_doc) = None.
Proof.
  split; [|split].
  - apply (proj1 (initialize_rules_reads_section _)). reflexivity.
  - exact (proj2 (initialize_rules_reads_section
                    (RuleEngine.set_config (RuleEngine.__init__ None) sample_config_doc))
             _ _ _ eq_refl eq_refl eq_refl).
  - exact (proj2 (initialize_rules_reads_section
                    (RuleEngine.set_config (RuleEngine.__init__ None) incomplete_config_doc))
             _ _ _ eq_refl eq_refl eq_refl).
Defined.

Section CacheMore.

Import EventListener.

Lemma read_keeps_settings s force now answer :
  let s' := snd (_get_current_position_info s force now answer) in
  suite s' = suite s /\ _cache_ttl s' = _cache_ttl s.
Proof.
  unfold _get_current_position_info.
  destruct (negb (suite s)); [auto|].
  destruct (cache_hit s force now); [auto|].
  destruct answer as [|[|[pos|] rest] pnl]; cbn; auto.
Qed.

Lemma cache_hit_empty s force now :
  _position_cache s = None -> cache_hit s force now = false.
Proof.
  intros Hc. unfold cache_hit. rewrite Hc.
  destruct force; reflexivity.
Qed.

(** One read on an empty cache when the broker shows no position. *)
Lemma read_flat_step s force now answer :
  suite s = true -> _position_cache s = None -> shows_no_position answer = true ->
  let r := _get_current_position_info s force now answer in
  fst r = None /\
  suite (snd r) = true /\ _position_cache (snd r) = None /\
  position_queries (snd r) = S (position_queries s).
Proof.
  intros Hs Hc Ha. pose proof (cache_hit_empty s force now Hc) as Hmiss.
  destruct answer as [|[|[pos|] rest] pnl]; try discriminate Ha.
  - rewrite (read_miss_raises s force now Hs Hmiss). cbn.
    repeat split; auto. exact (position_queries_called s).
  - rewrite (read_miss_flat s force now pnl Hs Hmiss). cbn.
    repeat split; auto. exact (position_queries_called s).
  - rewrite (read_miss_falsy s force now rest pnl Hs Hmiss). cbn.
    repeat split; auto. exact (position_queries_called s).
Qed.

(** X10. While the account is flat the cache never answers: starting from
    an empty cache, any sequence of reads during which the broker shows no
    position (or fails) returns "absent" every time and sends one query per
    read, however close the reads are and whether or not a refresh is
    forced. *)
Theorem flat_account_reads_always_query :
  forall (reads : list (bool * float * QueryOutcome)) (s : t),
    suite s = true ->
    _position_cache s = None ->
    Forall (fun read => shows_no_position (snd read) = true) reads ->
    let '(values, s') := run_reads s reads in
    Forall (fun v => v = None) values /\
    position_queries s' = (position_queries s + length reads)%nat /\
    _position_cache s' = None.
Proof.
  induction reads as [|[[force now] answer] reads IH]; intros s Hs Hc Hall.
  - cbn. repeat split; auto.
  - inversion Hall as [|x xs Ha Hrest]; subst. cbn [snd] in Ha.
    cbn [run_reads].
    pose proof (read_flat_step s force now answer Hs Hc Ha) as Hstep.
    destruct (_get_current_position_info s force now answer) as [v s1].
    cbn [fst snd] in Hstep. destruct Hstep as (Hv & Hs1 & Hc1 & Hq1).
    specialize (IH s1 Hs1 Hc1 Hrest).
    destruct (run_reads s1 reads) as [vs s2].
    destruct IH as (Hvs & Hq & Hc2).
    repeat split; [constructor; assumption | cbn [length]; lia | assumption].
Qed.

End CacheMore.

Lemma flat_account_reads_always_query_witness :
  let '(values, s') :=
    run_reads ready_listener
      [(false, 1%float, EventListener.QueryReturns [] None);
       (false, 1.1%float, EventListener.QueryReturns [] None);
       (true, 1.2%float, EventListener.QueryRaises)] in
  Forall (fun v => v = None) values /\
  position_queries s' = (position_queries ready_listener + 3)%nat /\
  EventListener._position_cache s' = None.
Proof.
  apply (flat_account_reads_always_query
           [(false, 1%float, EventListener.QueryReturns [] None);
            (false, 1.1%float, EventListener.QueryReturns [] None);
            (true, 1.2%float, EventListener.QueryRaises)] ready_listener);
    [reflexivity | reflexivity | repeat constructor].
Defined.

(** * More on the listener *)

Section ListenerFrames.

Import EventListener.

Lemma same_settings_refl s : same_settings s s.
Proof. repeat split. Qed.

Lemma same_settings_trans s1 s2 s3 :
  same_settings s1 s2 -> same_settings s2 s3 -> same_settings s1 s3.
Proof.
  unfold same_settings. intros (?&?&?&?&?&?) (?&?&?&?&?&?).
  repeat split; congruence.
Qed.

Lemma log_extends_refl s : log_extends s s.
Proof. exists []. now rewrite app_nil_r. Qed.

Lemma log_extends_trans s1 s2 s3 :
  log_extends s1 s2 -> log_extends s2 s3 -> log_extends s1 s3.
Proof.
  intros [l1 H1] [l2 H2]. exists (l1 ++ l2). now rewrite H2, H1, app_assoc.
Qed.

Lemma emit_emit x l1 l2 : emit (emit x l1) l2 = emit x (l1 ++ l2).
Proof. unfold emit. cbn. now rewrite app_assoc. Qed.

(** Everything a cache read leaves as it was. *)
Lemma read_fields s force now answer :
  let s' := snd (_get_current_position_info s force now answer) in
  same_settings s s' /\
  _trade_actions s' = _trade_actions s /\
  _last_confirmed_position s' = _last_confirmed_position s /\
  _position_flat_timestamp s' = _position_flat_timestamp s /\
  _stale_executions_filtered s' = _stale_executions_filtered s /\
  rule_engine s' = rule_engine s /\
  event_counts s' = event_counts s /\
  log_extends s s'.
Proof.
  cbv zeta.
  destruct (read_frame s force now answer) as ((Ta&Tc&Tm&Tw&Ts&Te&Th&Tn) & Hcnt & l & Hl & _).
  destruct (read_keeps_settings s force now answer) as (Hsu & Httl).
  unfold same_settings. rewrite Ta.
  repeat split; try assumption. exists l. exact Hl.
Qed.

Lemma on_order_filled_frame s ev o :
  let s' := _on_order_filled s ev o in
  same_settings s s' /\
  _last_confirmed_position s' = _last_confirmed_position s /\
  _position_flat_timestamp s' = _position_flat_timestamp s /\
  rule_engine s' = rule_engine s /\
  event_counts s' = count_fill (event_counts s) /\
  (_stale_executions_filtered s <= _stale_executions_filtered s')%nat /\
  log_extends s s'.
Proof.
  cbv zeta. unfold _on_order_filled.
  set (s1 := set_event_counts s (count_fill (event_counts s))).
  pose proof (read_fields s1 false (now_prev o) (answer_prev o)) as H2.
  destruct (_get_current_position_info s1 false (now_prev o) (answer_prev o)) as [prev s2].
  pose proof (read_fields s2 false (now_curr o) (answer_curr o)) as H3.
  destruct (_get_current_position_info s2 false (now_curr o) (answer_curr o)) as [cur s3].
  cbn [snd] in H2, H3.
  assert (H13 : same_settings s s3 /\
                _trade_actions s3 = _trade_actions s /\
                _last_confirmed_position s3 = _last_confirmed_position s /\
                _position_flat_timestamp s3 = _position_flat_timestamp s /\
                _stale_executions_filtered s3 = _stale_executions_filtered s /\
                rule_engine s3 = rule_engine s /\
                event_counts s3 = count_fill (event_counts s) /\
                log_extends s s3).
  { destruct H2 as (S2 & A2 & C2 & M2 & F2 & E2 & N2 & L2).
    destruct H3 as (S3 & A3 & C3 & M3 & F3 & E3 & N3 & L3).
    split; [exact (same_settings_trans s s2 s3 (same_settings_trans s s1 s2
                     (same_settings_refl s1) S2) S3)|].
    subst s1. cbn in A2, C2, M2, F2, E2, N2.
    split; [congruence|]. split; [congruence|]. split; [congruence|].
    split; [congruence|]. split; [congruence|]. split; [congruence|].
    apply (log_extends_trans s s2 s3); [|exact L3]. exact L2. }
  clear H2 H3.
  destruct H13 as ((Hsu & Httl & Hw & Hen & Hh & Hd) & Ha & Hc & Hm & Hf & He & Hn & l & Hl).
  assert (Hemit : forall (x : t) (extra : Log),
            suite x = suite s3 -> _cache_ttl x = _cache_ttl s3 ->
            _ignore_reopen_window x = _ignore_reopen_window s3 ->
            enable_risk_rules x = enable_risk_rules s3 ->
            risk_handler x = risk_handler s3 ->
            dom (_trade_actions x) = dom (_trade_actions s3) ->
            _last_confirmed_position x = _last_confirmed_position s3 ->
            _position_flat_timestamp x = _position_flat_timestamp s3 ->
            rule_engine x = rule_engine s3 ->
            event_counts x = event_counts s3 ->
            (_stale_executions_filtered s3 <= _stale_executions_filtered x)%nat ->
            log x = log s3 ->
            same_settings s (emit x extra) /\
            _last_confirmed_position (emit x extra) = _last_confirmed_position s /\
            _position_flat_timestamp (emit x extra) = _position_flat_timestamp s /\
            rule_engine (emit x extra) = rule_engine s /\
            event_counts (emit x extra) = count_fill (event_counts s) /\
            (_stale_executions_filtered s <= _stale_executions_filtered (emit x extra))%nat /\
            log_extends s (emit x extra)).
  { intros x extra X1 X2 X3 X4 X5 X6 X7 X8 X9 X10 X11 X12.
    unfold same_settings. cbn [emit suite _cache_ttl _ignore_reopen_window
      enable_risk_rules risk_handler _trade_actions _last_confirmed_position
      _position_flat_timestamp rule_engine event_counts _stale_executions_filtered log].
    repeat split; try congruence; try lia.
    exists (l ++ extra). cbn [emit log]. rewrite X12, Hl. now rewrite app_assoc. }
  destruct (is_stale_after_manual_close s3 (now_check o) cur).
  { apply Hemit; cbn; auto. }
  destruct (_trade_actions s3 !! _classify_trade_action prev cur _) as [n|] eqn:Hlk.
  2:{ apply Hemit; auto. }
  assert (Hdom : dom (<[_classify_trade_action prev cur
                          (if eq_int (_safe_get (_safe_get (fill_data ev) "order_data" (PDict []))
                                        "side" (PInt 0)) OrderSide_BUY
                           then "BUY" else "SELL") := S n]> (_trade_actions s3))
                 = dom (_trade_actions s3)).
  { apply dom_insert_lookup_L. rewrite Hlk. eauto. }
  destruct prev as [pv|], cur as [cu|].
  all: rewrite emit_emit.
  all: apply Hemit; cbn; auto.
Qed.

Lemma risk_check_more s ev o r :
  let s1 := _on_order_filled s ev o in
  let s2 := _on_order_filled_with_risk_check s ev o r in
  same_settings s1 s2 /\ event_counts s2 = event_counts s1 /\ log_extends s1 s2.
Proof.
  cbv zeta. unfold _on_order_filled_with_risk_check.
  set (s1 := _on_order_filled s ev o).
  destruct (enable_risk_rules s1);
    [|split; [apply same_settings_refl | split; [reflexivity | apply log_extends_refl]]].
  destruct (risk_handler s1) as [h|];
    [|split; [apply same_settings_refl | split; [reflexivity | apply log_extends_refl]]].
  pose proof (read_fields s1 true (now_risk r) (answer_risk r)) as Hf.
  destruct (_get_current_position_info s1 true (now_risk r) (answer_risk r)) as [cp s2].
  cbn [snd] in Hf.
  destruct Hf as ((Hsu & Httl & Hw & Hen & Hh & Hd) & _ & _ & _ & _ & _ & Hn & l & Hl).
  destruct (rule_engine s2) as [e|].
  - destruct (RiskEventHandler.on_order_filled h e _) as [[e' l'] c].
    unfold same_settings, log_extends. cbn. repeat split; try assumption.
    exists (l ++ l'). rewrite Hl. now rewrite app_assoc.
  - unfold same_settings, log_extends. cbn. repeat split; try assumption.
    eexists. rewrite Hl. now rewrite <- app_assoc.
Qed.

Lemma on_position_updated_frame s ev now :
  let s' := _on_position_updated s ev now in
  same_settings s s' /\
  _trade_actions s' = _trade_actions s /\
  _stale_executions_filtered s' = _stale_executions_filtered s /\
  rule_engine s' = rule_engine s /\
  event_counts s' = count_position (event_counts s) /\
  log_extends s s'.
Proof.
  cbv zeta. unfold _on_position_updated.
  set (s1 := set_event_counts s (count_position (event_counts s))).
  destruct (_ && confirmed_nonzero s1).
  - match goal with |- context [if ?b then _ else _] => destruct b end.
    + destruct (enable_risk_rules _); unfold same_settings, log_extends; cbn;
        repeat split; eexists; try reflexivity.
      now rewrite <- app_assoc.
    + unfold same_settings, log_extends; cbn; repeat split; eexists; reflexivity.
  - destruct (_ && within_window s1 now).
    + unfold same_settings, log_extends; cbn; repeat split; eexists; reflexivity.
    + match goal with |- context [if ?b then _ else _] => destruct b end.
      * destruct (enable_risk_rules _); unfold same_settings, log_extends; cbn;
          repeat split; try (exists []; now rewrite app_nil_r).
        eexists; reflexivity.
      * unfold same_settings, log_extends; cbn; repeat split.
        exists []. now rewrite app_nil_r.
Qed.

Lemma on_position_pnl_update_frame s ev :
  let s' := _on_position_pnl_update s ev in
  same_settings s s' /\
  _trade_actions s' = _trade_actions s /\
  _last_confirmed_position s' = _last_confirmed_position s /\
  _position_flat_timestamp s' = _position_flat_timestamp s /\
  _stale_executions_filtered s' = _stale_executions_filtered s /\
  rule_engine s' = rule_engine s /\
  event_counts s' = count_pnl (event_counts s) /\
  log_extends s s'.
Proof.
  cbv zeta. unfold _on_position_pnl_update.
  destruct (_ =? _)%nat; unfold same_settings, log_extends; cbn; repeat split.
  - eexists; reflexivity.
  - exists []. now rewrite app_nil_r.
Qed.

(** Where the position handler leaves the marker. *)
Lemma marker_step s ev now :
  _position_flat_timestamp (_on_position_updated s ev now) =
  if (default 0 (raw_size (position_data ev)) =? 0) && confirmed_nonzero s
  then Some now else _position_flat_timestamp s.
Proof.
  unfold _on_position_updated.
  set (s1 := set_event_counts s (count_position (event_counts s))).
  change (confirmed_nonzero s1) with (confirmed_nonzero s).
  destruct (_ && confirmed_nonzero s).
  - match goal with |- context [if ?b then _ else _] => destruct b end;
      [destruct (enable_risk_rules _)|]; reflexivity.
  - destruct (_ && within_window s1 now); [reflexivity|].
    match goal with |- context [if ?b then _ else _] => destruct b end;
      [destruct (enable_risk_rules _)|]; reflexivity.
Qed.

End ListenerFrames.

Section ListenerMore.

Import EventListener.

(** X11. A fill never writes the position state.  After the plain handler
    as after the wrapper, the confirmed position and the manual-close
    marker are as before, and so are the suite, both durations, the risk
    switch and handler and the set of counted action names; the fill is
    counted once in [event_counts], stale, failed or not, and the other two
    event counters do not move.  The plain handler leaves the rule engine
    alone as well. *)
Theorem fills_never_write_position_state :
  forall (s : t) (ev : FillEvent) (o : FillOracle) (r : RiskOracle),
    let s' := _on_order_filled s ev o in
    let s'' := _on_order_filled_with_risk_check s ev o r in
    (_last_confirmed_position s' = _last_confirmed_position s /\
     _position_flat_timestamp s' = _position_flat_timestamp s /\
     same_settings s s' /\
     event_counts s' = count_fill (event_counts s) /\
     rule_engine s' = rule_engine s) /\
    (_last_confirmed_position s'' = _last_confirmed_position s /\
     _position_flat_timestamp s'' = _position_flat_timestamp s /\
     same_settings s s'' /\
     event_counts s'' = count_fill (event_counts s)).
Proof.
  intros s ev o r s' s''.
  destruct (on_order_filled_frame s ev o) as (Hs & Hc & Hm & He & Hn & _ & _).
  destruct (risk_check_frame s ev o r) as (_ & Hc2 & Hm2 & _ & _).
  destruct (risk_check_more s ev o r) as (Hs2 & Hn2 & _).
  fold s' in Hs, Hc, Hm, He, Hn, Hc2, Hm2, Hs2, Hn2.
  fold s'' in Hc2, Hm2, Hs2, Hn2.
  split; [split; [exact Hc | split; [exact Hm | split; [exact Hs | split; [exact Hn | exact He]]]]|].
  split; [congruence|]. split; [congruence|].
  split; [exact (same_settings_trans s s' s'' Hs Hs2) | congruence].
Qed.

(** The handler on a fill it does not find stale, up to the dictionary
    lookup. *)
Lemma on_order_filled_fresh s ev o :
  fill_is_stale s o = false ->
  let s3 := snd (fill_reads s o) in
  let s' := _on_order_filled s ev o in
  match _trade_actions s !! fill_label s o with
  | None =>
      _trade_actions s' = _trade_actions s /\
      log s' = log s3 ++ fill_handler_error
  | Some n =>
      _trade_actions s' = <[fill_label s o := S n]> (_trade_actions s) /\
      exists l, log s' = log s3 ++ [mkLog INFO "TRADE_EXECUTED"] ++ l
  end /\
  _stale_executions_filtered s' = _stale_executions_filtered s.
Proof.
  unfold fill_is_stale, fill_label, post_fill_snapshot, fill_reads, _on_order_filled.
  set (s1 := set_event_counts s (count_fill (event_counts s))).
  pose proof (read_fields s1 false (now_prev o) (answer_prev o)) as H2.
  destruct (_get_current_position_info s1 false (now_prev o) (answer_prev o)) as [prev s2].
  pose proof (read_fields s2 false (now_curr o) (answer_curr o)) as H3.
  destruct (_get_current_position_info s2 false (now_curr o) (answer_curr o)) as [cur s3].
  cbn [fst snd] in *. intros Hst. rewrite Hst.
  destruct H2 as (_ & A2 & _ & _ & F2 & _), H3 as (_ & A3 & _ & _ & F3 & _).
  subst s1. cbn in A2, F2.
  assert (Ha : _trade_actions s3 = _trade_actions s) by congruence.
  assert (Hf : _stale_executions_filtered s3 = _stale_executions_filtered s) by congruence.
  change (_classify_trade_action prev cur _) with (_classify_trade_action prev cur "").
  rewrite Ha.
  destruct (_trade_actions s !! _classify_trade_action prev cur "") as [n|].
  - destruct prev as [pv|], cur as [cu|]; rewrite emit_emit; cbn;
      (split; [split; [reflexivity | eexists; reflexivity] | exact Hf]).
  - cbn. auto.
Qed.

(** X12. A fill that is not stale and whose label is a key of
    [_trade_actions] is counted under that label alone: the label's counter
    grows by exactly one, every other counter keeps its value, the stale
    counter does not move, and the trade-executed record is logged. *)
Theorem counted_fill_increments_one_counter :
  forall (s : t) (ev : FillEvent) (o : FillOracle) (n : nat),
    fill_is_stale s o = false ->
    _trade_actions s !! fill_label s o = Some n ->
    let s' := _on_order_filled s ev o in
    _trade_actions s' !! fill_label s o = Some (S n) /\
    (forall k, k <> fill_label s o -> _trade_actions s' !! k = _trade_actions s !! k) /\
    _stale_executions_filtered s' = _stale_executions_filtered s /\
    In (mkLog INFO "TRADE_EXECUTED") (log s').
Proof.
  intros s ev o n Hst Hlk s'.
  pose proof (on_order_filled_fresh s ev o Hst) as H. cbv zeta in H. fold s' in H.
  rewrite Hlk in H. destruct H as ((Ha & l & Hl) & Hf).
  rewrite Ha. split; [apply lookup_insert_eq|].
  split; [intros k Hk; apply lookup_insert_ne; congruence|].
  split; [exact Hf|].
  rewrite Hl. apply in_or_app. right. left. reflexivity.
Qed.

Lemma flip_label prev cur p c :
  prev = Some p -> cur = Some c ->
  pi_size p <> 0 -> pi_size c <> 0 -> pi_direction c <> pi_direction p ->
  _classify_trade_action prev cur "" = "Flip".
Proof.
  intros -> -> Hp Hc Hd. cbn [_classify_trade_action].
  replace (Z.abs (pi_size p) =? 0) with false by (symmetry; apply Z.eqb_neq; lia).
  replace (Z.abs (pi_size c) =? 0) with false by (symmetry; apply Z.eqb_neq; lia).
  cbn [andb].
  destruct (String.eqb_spec (pi_direction c) (pi_direction p)); [contradiction|].
  reflexivity.
Qed.

(** X13. A reversal is never counted.  When a fill that is not stale turns
    a non-zero position into a non-zero position of another direction, the
    classifier answers "Flip"; [_trade_actions] is keyed by "Reverse", not
    "Flip", so the lookup raises: no counter changes, no trade-executed
    record is written, and the handler ends with its error records. *)
Theorem reversal_fill_is_not_counted :
  forall (s : t) (ev : FillEvent) (o : FillOracle) (p c : PositionInfo),
    fill_is_stale s o = false ->
    fst (fst (fill_reads s o)) = Some p ->
    post_fill_snapshot s o = Some c ->
    pi_size p <> 0 -> pi_size c <> 0 ->
    pi_direction c <> pi_direction p ->
    _trade_actions s !! "Flip" = None ->
    let s' := _on_order_filled s ev o in
    fill_label s o = "Flip" /\
    _trade_actions s' = _trade_actions s /\
    _stale_executions_filtered s' = _stale_executions_filtered s /\
    log s' = log (snd (fill_reads s o)) ++ fill_handler_error.
Proof.
  intros s ev o p c Hst Hprev Hcur Hp Hc Hd Hflip s'.
  assert (Hlab : fill_label s o = "Flip")
    by (unfold fill_label; eapply flip_label; eauto).
  pose proof (on_order_filled_fresh s ev o Hst) as H. cbv zeta in H. fold s' in H.
  rewrite Hlab, Hflip in H. destruct H as ((Ha & Hl) & Hf).
  repeat split; assumption.
Qed.

(** X14. The marker is written by a manual close and by nothing else in
    the position handler.  An update of size zero that meets a non-zero
    confirmed position sets the marker to the current clock reading,
    confirms the flat position and logs the manual close; every other update
    leaves the marker as it is. *)
Theorem marker_set_exactly_on_manual_close :
  forall (s : t) (ev : PositionEvent) (now : float),
    let s' := _on_position_updated s ev now in
    if (default 0 (raw_size (position_data ev)) =? 0) && confirmed_nonzero s
    then _position_flat_timestamp s' = Some now /\
         _last_confirmed_position s' = Some (confirmed_of (position_data ev)) /\
         confirmed_nonzero s' = false /\
         exists l, log s' = log s ++ mkLog INFO "MANUAL_POSITION_CLOSED" :: l
    else _position_flat_timestamp s' = _position_flat_timestamp s.
Proof.
  intros s ev now. cbv zeta. unfold _on_position_updated.
  set (s1 := set_event_counts s (count_position (event_counts s))).
  change (confirmed_nonzero s1) with (confirmed_nonzero s).
  destruct (Z.eqb_spec (default 0 (raw_size (position_data ev))) 0) as [Hz|Hz];
    cbn [andb negb].
  - destruct (confirmed_nonzero s) eqn:Hn.
    + cbn. unfold confirmed_nonzero. cbn. rewrite Hz. cbn.
      repeat split. eexists. reflexivity.
    + reflexivity.
  - destruct (within_window s1 now); [reflexivity|].
    match goal with |- context [if ?b then _ else _] => destruct b end;
      [destruct (enable_risk_rules _)|]; reflexivity.
Qed.

End ListenerMore.

Lemma counted_fill_increments_one_counter_witness :
  let s' := EventListener._on_order_filled ready_listener late_fill open_oracle in
  EventListener._trade_actions s' !! fill_label ready_listener open_oracle = Some 1%nat /\
  (forall k, k <> fill_label ready_listener open_oracle ->
     EventListener._trade_actions s' !! k
       = EventListener._trade_actions ready_listener !! k) /\
  EventListener._stale_executions_filtered s'
    = EventListener._stale_executions_filtered ready_listener /\
  In (mkLog INFO "TRADE_EXECUTED") (EventListener.log s').
Proof.
  apply (counted_fill_increments_one_counter ready_listener late_fill open_oracle 0);
    reflexivity.
Defined.

Lemma reversal_fill_is_not_counted_witness :
  let s' := EventListener._on_order_filled ready_listener late_fill flip_oracle in
  fill_label ready_listener flip_oracle = "Flip" /\
  EventListener._trade_actions s' = EventListener._trade_actions ready_listener /\
  EventListener._stale_executions_filtered s'
    = EventListener._stale_executions_filtered ready_listener /\
  EventListener.log s'
    = EventListener.log (snd (fill_reads ready_listener flip_oracle))
      ++ EventListener.fill_handler_error.
Proof.
  apply (reversal_fill_is_not_counted ready_listener late_fill flip_oracle
           (EventListener.snapshot_of (mnq_position 2) None)
           (EventListener.snapshot_of (short_position 3) None));
    try reflexivity; vm_compute; discriminate.
Defined.

(** * Runs of the listener *)

Section Runs.

Import EventListener.

(** What one handler run keeps and counts. *)
Lemma step_frame s i :
  same_settings s (step s i) /\
  (_stale_executions_filtered s <= _stale_executions_filtered (step s i))%nat /\
  log_extends s (step s i) /\
  event_counts (step s i) =
    match i with
    | InPosition _ _ => count_position (event_counts s)
    | InFill _ _ | InFillChecked _ _ _ => count_fill (event_counts s)
    | InPnl _ => count_pnl (event_counts s)
    end.
Proof.
  destruct i as [ev now | ev o | ev o r | ev]; cbn [step].
  - destruct (on_position_updated_frame s ev now) as (Hs & _ & Hf & _ & Hn & Hl).
    split; [exact Hs|]. split; [lia|]. split; [exact Hl | exact Hn].
  - destruct (on_order_filled_frame s ev o) as (Hs & _ & _ & _ & Hn & Hf & Hl).
    split; [exact Hs|]. split; [exact Hf|]. split; [exact Hl | exact Hn].
  - destruct (on_order_filled_frame s ev o) as (Hs & _ & _ & _ & Hn & Hf & Hl).
    destruct (risk_check_more s ev o r) as (Hs2 & Hn2 & Hl2).
    destruct (risk_check_frame s ev o r) as (_ & _ & _ & _ & Hf2).
    split; [eapply same_settings_trans; eauto|].
    split; [lia|]. split; [eapply log_extends_trans; eauto | congruence].
  - destruct (on_position_pnl_update_frame s ev) as (Hs & _ & _ & _ & Hf & _ & Hn & Hl).
    split; [exact Hs|]. split; [lia|]. split; [exact Hl | exact Hn].
Qed.

(** X15. The event counters count every event delivered, whatever became
    of it: after any run of handler invocations, each of the three counters
    has grown by the number of inputs of its kind, suppressed ghost reopens,
    stale fills and failed handlers included. *)
Theorem event_counters_count_every_event :
  forall (inputs : list ListenerInput) (s : t),
    let s' := run s inputs in
    order_filled (event_counts s')
      = (order_filled (event_counts s) + count_inputs is_fill inputs)%nat /\
    position_updated (event_counts s')
      = (position_updated (event_counts s) + count_inputs is_position inputs)%nat /\
    position_pnl_update (event_counts s')
      = (position_pnl_update (event_counts s) + count_inputs is_pnl inputs)%nat.
Proof.
  unfold run, count_inputs.
  induction inputs as [|i inputs IH]; intros s; cbn [fold_left List.filter].
  - cbn. repeat split; lia.
  - specialize (IH (step s i)). cbv zeta in *. destruct IH as (Hf & Hp & Hl).
    rewrite Hf, Hp, Hl.
    destruct (step_frame s i) as (_ & _ & _ & Hc). rewrite Hc.
    destruct i; cbn; repeat split; lia.
Qed.

(** X16. No handler rewrites the listener's settings: after any run the
    suite, the cache TTL, the suppression window, the risk switch and
    handler and the set of keys of [_trade_actions] are those of the start;
    the stale counter has not gone down and the log has only grown.  In
    particular a listener started by [__init__] never acquires a "Flip"
    counter and keeps a TTL of 0.5 and a window of 3.0. *)
Theorem run_keeps_settings :
  forall (inputs : list ListenerInput) (s : t),
    same_settings s (run s inputs) /\
    (_stale_executions_filtered s <= _stale_executions_filtered (run s inputs))%nat /\
    log_extends s (run s inputs) /\
    (forall enable,
       s = __init__ enable ->
       _trade_actions (run s inputs) !! "Flip" = None /\
       _cache_ttl (run s inputs) = 0.5%float /\
       _ignore_reopen_window (run s inputs) = 3.0%float).
Proof.
  assert (Hrun : forall inputs s,
            same_settings s (run s inputs) /\
            (_stale_executions_filtered s <= _stale_executions_filtered (run s inputs))%nat /\
            log_extends s (run s inputs)).
  { unfold run. induction inputs as [|i inputs IH]; intros s; cbn [fold_left].
    - split; [apply same_settings_refl | split; [lia | apply log_extends_refl]].
    - destruct (IH (step s i)) as (Hs & Hf & Hl).
      destruct (step_frame s i) as (Hs1 & Hf1 & Hl1 & _).
      split; [eapply same_settings_trans; eauto|].
      split; [lia | eapply log_extends_trans; eauto]. }
  intros inputs s. destruct (Hrun inputs s) as (Hs & Hf & Hl).
  split; [exact Hs|]. split; [exact Hf|]. split; [exact Hl|].
  intros enable ->. destruct Hs as (_ & Httl & Hw & _ & _ & Hd).
  split; [|split; [rewrite Httl | rewrite Hw]; reflexivity].
  apply not_elem_of_dom. rewrite Hd. apply not_elem_of_dom. reflexivity.
Qed.

(** Inside the window a flat listener stays flat, one input at a time. *)
Lemma step_stays_flat s i t0 :
  _position_flat_timestamp s = Some t0 -> (t0 =? 0)%float = false ->
  confirmed_nonzero s = false ->
  inside_window (_ignore_reopen_window s) t0 i ->
  _position_flat_timestamp (step s i) = Some t0 /\
  confirmed_nonzero (step s i) = false /\
  _ignore_reopen_window (step s i) = _ignore_reopen_window s.
Proof.
  intros Hm Hnz Hflat Hin.
  destruct (step_frame s i) as ((_ & _ & Hw & _) & _).
  split; [|split; [|exact Hw]].
  - destruct i as [ev now | ev o | ev o r | ev]; cbn [step].
    + pose proof (marker_step s ev now) as H.
      rewrite Hflat, andb_false_r in H. congruence.
    + destruct (on_order_filled_frame s ev o) as (_ & _ & H & _). congruence.
    + destruct (risk_check_frame s ev o r) as (_ & _ & H2 & _).
      destruct (on_order_filled_frame s ev o) as (_ & _ & H & _). congruence.
    + destruct (on_position_pnl_update_frame s ev) as (_ & _ & _ & H & _). congruence.
  - destruct i as [ev now | ev o | ev o r | ev]; cbn [step].
    + cbn [inside_window] in Hin.
      pose proof (within_window_true s now t0 Hm Hnz Hin) as Hwin.
      unfold _on_position_updated.
      set (s1 := set_event_counts s (count_position (event_counts s))).
      change (confirmed_nonzero s1) with (confirmed_nonzero s).
      change (within_window s1 now) with (within_window s now).
      rewrite Hflat, Hwin, andb_false_r, andb_true_r.
      destruct (Z.eqb_spec (default 0 (raw_size (position_data ev))) 0) as [Hz|Hz];
        cbn [negb].
      * cbn [andb]. unfold confirmed_nonzero. cbn. rewrite Hz. reflexivity.
      * exact Hflat.
    + destruct (on_order_filled_frame s ev o) as (_ & H & _).
      unfold confirmed_nonzero in *. now rewrite H.
    + destruct (risk_check_frame s ev o r) as (_ & H2 & _).
      destruct (on_order_filled_frame s ev o) as (_ & H & _).
      unfold confirmed_nonzero in *. now rewrite H2, H.
    + destruct (on_position_pnl_update_frame s ev) as (_ & _ & H & _).
      unfold confirmed_nonzero in *. now rewrite H.
Qed.

(** X17. The suppression window keeps the position flat.  Once the marker
    is set to a reading other than zero and the confirmed position is flat,
    any run of position updates each read while the handler's own test
    holds (the binary64 difference of its reading and the marker is below
    the window), mixed with fills and P&L updates in any number and order,
    ends with the confirmed position still flat and the marker where it
    was: reopens are suppressed, flat updates confirm a flat position, and
    nothing else writes. *)
Theorem window_keeps_position_flat :
  forall (inputs : list ListenerInput) (s : t) (t0 : float),
    _position_flat_timestamp s = Some t0 ->
    (t0 =? 0)%float = false ->
    confirmed_nonzero s = false ->
    Forall (inside_window (_ignore_reopen_window s) t0) inputs ->
    confirmed_nonzero (run s inputs) = false /\
    _position_flat_timestamp (run s inputs) = Some t0.
Proof.
  unfold run.
  induction inputs as [|i inputs IH]; intros s t0 Hm Hnz Hflat Hall; cbn [fold_left].
  - auto.
  - inversion Hall as [|x xs Hi Hrest]; subst.
    destruct (step_stays_flat s i t0 Hm Hnz Hflat Hi) as (Hm1 & Hflat1 & Hw1).
    apply (IH (step s i) t0 Hm1 Hnz Hflat1). now rewrite Hw1.
Qed.

End Runs.

Lemma run_keeps_settings_witness :
  EventListener._trade_actions (run (EventListener.__init__ true) sample_window_run)
    !! "Flip" = None /\
  EventListener._cache_ttl (run (EventListener.__init__ true) sample_window_run) = 0.5%float /\
  EventListener._ignore_reopen_window
    (run (EventListener.__init__ true) sample_window_run) = 3.0%float.
Proof.
  exact (proj2 (proj2 (proj2 (run_keeps_settings sample_window_run
                                (EventListener.__init__ true)))) true eq_refl).
Defined.

Lemma window_keeps_position_flat_witness :
  EventListener.confirmed_nonzero (run closed_listener sample_window_run) = false /\
  EventListener._position_flat_timestamp (run closed_listener sample_window_run)
    = Some 10%float.
Proof.
  apply (window_keeps_position_flat sample_window_run closed_listener 10%float).
  - reflexivity.
  - reflexivity.
  - reflexivity.
  - repeat constructor.
Defined.

(** * P&L updates, closing fills and start-up *)

Section PnlAndStartup.

Import EventListener.

Lemma div10_step c :
  (S c / 10 = c / 10 + (if (S c mod 10 =? 0) then 1 else 0))%nat.
Proof.
  pose proof (Nat.div_mod_eq (S c) 10). pose proof (Nat.div_mod_eq c 10).
  pose proof (Nat.mod_upper_bound c 10 ltac:(lia)).
  pose proof (Nat.mod_upper_bound (S c) 10 ltac:(lia)).
  destruct (Nat.eqb_spec (S c mod 10) 0) as [E|E]; nia.
Qed.

Lemma pnl_blocks_app l1 l2 : pnl_blocks (l1 ++ l2) = (pnl_blocks l1 + pnl_blocks l2)%nat.
Proof. unfold pnl_blocks. now rewrite List.filter_app, length_app. Qed.

Lemma pnl_step s ev :
  let c := position_pnl_update (event_counts s) in
  let s' := _on_position_pnl_update s ev in
  position_pnl_update (event_counts s') = S c /\
  pnl_blocks (log s') = (pnl_blocks (log s) + (S c / 10 - c / 10))%nat.
Proof.
  cbv zeta. unfold _on_position_pnl_update.
  cbn [event_counts set_event_counts count_pnl position_pnl_update].
  pose proof (div10_step (position_pnl_update (event_counts s))) as Hd.
  destruct (S (position_pnl_update (event_counts s)) mod 10 =? 0)%nat.
  - cbn [emit log event_counts set_event_counts count_pnl position_pnl_update].
    rewrite pnl_blocks_app. change (pnl_blocks pnl_records) with 1%nat.
    split; [reflexivity | lia].
  - cbn [log event_counts set_event_counts count_pnl position_pnl_update].
    split; [reflexivity | lia].
Qed.

(** X18. P&L updates are all counted and one in ten is logged: after [n]
    P&L events on a listener that had counted [c] of them, the counter is
    [c + n] and the log holds [(c + n) / 10 - c / 10] more P&L blocks, one
    for each multiple of ten the counter has passed. *)
Theorem pnl_updates_logged_every_tenth :
  forall (evs : list PnlEvent) (s : t),
    let c := position_pnl_update (event_counts s) in
    let s' := run s (map InPnl evs) in
    position_pnl_update (event_counts s') = (c + length evs)%nat /\
    pnl_blocks (log s') = (pnl_blocks (log s) + ((c + length evs) / 10 - c / 10))%nat.
Proof.
  unfold run.
  induction evs as [|ev evs IH]; intros s; cbn [map fold_left length step].
  - cbv zeta. rewrite Nat.add_0_r. split; lia.
  - specialize (IH (_on_position_pnl_update s ev)). cbv zeta in *.
    destruct (pnl_step s ev) as (Hc & Hb). destruct IH as (IHc & IHb).
    rewrite IHc, IHb, Hc, Hb.
    set (c := position_pnl_update (event_counts s)) in *.
    assert (c / 10 <= S c / 10)%nat by (apply Nat.Div0.div_le_mono; lia).
    assert (S c / 10 <= (S c + length evs) / 10)%nat
      by (apply Nat.Div0.div_le_mono; lia).
    replace (c + S (length evs))%nat with (S c + length evs)%nat by lia.
    split; lia.
Qed.

(** X19. The realized P&L of a position change is a placeholder: the
    function returns either nothing or exactly zero, never an amount.  It
    returns nothing precisely when there is no previous position, or when
    the position kept its direction without getting smaller. *)
Theorem realized_pnl_is_a_placeholder :
  forall (prev cur : option PositionInfo),
    (_get_incremental_realized_pnl prev cur = None \/
     _get_incremental_realized_pnl prev cur = Some 0%Q) /\
    (_get_incremental_realized_pnl prev cur = None <->
     prev = None \/
     exists p c, prev = Some p /\ cur = Some c /\
                 pi_direction p = pi_direction c /\
                 Z.abs (pi_size p) <= Z.abs (pi_size c)).
Proof.
  intros prev cur. destruct prev as [p|]; cbn [_get_incremental_realized_pnl].
  2:{ split; [left; reflexivity | split; auto]. }
  destruct cur as [c|].
  2:{ split; [right; reflexivity|]. split; [discriminate|].
      intros [H | (p' & c' & _ & H & _)]; discriminate H. }
  destruct (Z.ltb_spec (Z.abs (pi_size c)) (Z.abs (pi_size p))) as [Hlt|Hge];
    destruct (String.eqb_spec (pi_direction p) (pi_direction c)) as [Hd|Hd];
    cbn [andb negb].
  - split; [right; reflexivity|]. split; [discriminate|].
    intros [H | (p' & c' & Hp & Hc & _ & Hle)]; [discriminate H|].
    injection Hp as <-. injection Hc as <-. lia.
  - split; [right; reflexivity|]. split; [discriminate|].
    intros [H | (p' & c' & Hp & Hc & Hdd & _)]; [discriminate H|].
    injection Hp as <-. injection Hc as <-. contradiction.
  - split; [left; reflexivity|]. split; [|reflexivity].
    intros _. right. exists p, c. auto.
  - split; [right; reflexivity|]. split; [discriminate|].
    intros [H | (p' & c' & Hp & Hc & Hdd & _)]; [discriminate H|].
    injection Hp as <-. injection Hc as <-. contradiction.
Qed.

(** X20. A fill that closes the position is counted and then fails.  When
    the snapshot before the fill shows a position and the one after shows
    none, the fill is never stale and is labelled "Close"; the handler adds
    one to that counter, logs the trade and the closed position, and then
    awaits the result of [_get_incremental_realized_pnl], which is a number:
    the handler ends with its error records and never logs the trade
    total. *)
Theorem closing_fill_is_counted_then_fails :
  forall (s : t) (ev : FillEvent) (o : FillOracle) (p : PositionInfo) (n : nat),
    fst (fst (fill_reads s o)) = Some p ->
    post_fill_snapshot s o = None ->
    _trade_actions s !! "Close" = Some n ->
    let s' := _on_order_filled s ev o in
    fill_is_stale s o = false /\
    fill_label s o = "Close" /\
    _trade_actions s' = <["Close" := S n]> (_trade_actions s) /\
    log s' = log (snd (fill_reads s o))
             ++ [mkLog INFO "TRADE_EXECUTED"; mkLog INFO "ID"; mkLog INFO "Action";
                 mkLog INFO "Position Closed"]
             ++ fill_handler_error.
Proof.
  unfold fill_is_stale, fill_label, post_fill_snapshot, fill_reads, _on_order_filled.
  intros s ev o p n.
  set (s1 := set_event_counts s (count_fill (event_counts s))).
  pose proof (read_fields s1 false (now_prev o) (answer_prev o)) as H2.
  destruct (_get_current_position_info s1 false (now_prev o) (answer_prev o)) as [prev s2].
  pose proof (read_fields s2 false (now_curr o) (answer_curr o)) as H3.
  destruct (_get_current_position_info s2 false (now_curr o) (answer_curr o)) as [cur s3].
  cbn [fst snd] in *. intros -> -> Hlk.
  destruct H2 as (_ & A2 & _), H3 as (_ & A3 & _).
  subst s1. cbn in A2.
  assert (Ha : _trade_actions s3 = _trade_actions s) by congruence.
  assert (Hst : is_stale_after_manual_close s3 (now_check o) None = false)
    by (unfold is_stale_after_manual_close; apply andb_false_r).
  rewrite Hst. cbn [_classify_trade_action]. rewrite Ha, Hlk.
  rewrite emit_emit. cbn. repeat split.
Qed.

Lemma risk_check_without_risk s ev o r :
  enable_risk_rules s = false \/ risk_handler s = None ->
  _on_order_filled_with_risk_check s ev o r = _on_order_filled s ev o.
Proof.
  intros H. unfold _on_order_filled_with_risk_check.
  destruct (on_order_filled_frame s ev o) as ((_ & _ & _ & Hen & Hh & _) & _).
  rewrite Hen, Hh. destruct H as [-> | ->]; [reflexivity|].
  destruct (enable_risk_rules s); reflexivity.
Qed.

(** X21. A configuration the engine cannot initialise from switches risk
    checking off for the session.  When [initialize] raises during
    [setup_suite], the listener comes out with [enable_risk_rules] false and
    no risk handler installed, and from then on the wrapper does exactly
    what the plain fill handler does: no rule is evaluated on any fill. *)
Theorem failed_initialization_disables_risk_checks :
  forall (s : t) (file : RuleEngine.ConfigFile) (close : CloseOracle) (client : Suite),
    RuleEngine.initialize (RuleEngine.__init__ (Some "config/risk_config.json")) file = None ->
    let s' := setup_suite s file close client in
    enable_risk_rules s' = false /\
    risk_handler s' = risk_handler s /\
    suite s' = true /\
    (forall ev o r,
       _on_order_filled_with_risk_check s' ev o r = _on_order_filled s' ev o).
Proof.
  intros s file close client Hraise s'.
  assert (H : enable_risk_rules s' = false /\ risk_handler s' = risk_handler s /\
              suite s' = true).
  { subst s'. unfold setup_suite, _initialize_risk_rules.
    cbn [enable_risk_rules set_suite emit]. rewrite Hraise.
    destruct (enable_risk_rules s) eqn:He.
    - destruct (RuleEngine._load_config _ file) as [e1 l1]. cbn. auto.
    - cbn. auto. }
  destruct H as (He & Hh & Hs). repeat split; try assumption.
  intros ev o r. apply risk_check_without_risk. left. exact He.
Qed.

End PnlAndStartup.

Lemma closing_fill_is_counted_then_fails_witness :
  let s' := EventListener._on_order_filled ready_listener late_fill close_oracle in
  fill_is_stale ready_listener close_oracle = false /\
  fill_label ready_listener close_oracle = "Close" /\
  EventListener._trade_actions s'
    = <["Close" := 1%nat]> (EventListener._trade_actions ready_listener) /\
  EventListener.log s'
    = EventListener.log (snd (fill_reads ready_listener close_oracle))
      ++ [mkLog INFO "TRADE_EXECUTED"; mkLog INFO "ID"; mkLog INFO "Action";
          mkLog INFO "Position Closed"]
      ++ EventListener.fill_handler_error.
Proof.
  apply (closing_fill_is_counted_then_fails ready_listener late_fill close_oracle
           (EventListener.snapshot_of (mnq_position 2) None) 0); reflexivity.
Defined.

Lemma failed_initialization_disables_risk_checks_witness :
  let s' := EventListener.setup_suite (EventListener.__init__ true)
              (RuleEngine.FileJson incomplete_config_doc) close_ok None in
  EventListener.enable_risk_rules s' = false /\
  EventListener.risk_handler s' = None /\
  EventListener.suite s' = true /\
  (forall ev o r,
     EventListener._on_order_filled_with_risk_check s' ev o r
       = EventListener._on_order_filled s' ev o).
Proof.
  apply (failed_initialization_disables_risk_checks (EventListener.__init__ true)
           (RuleEngine.FileJson incomplete_config_doc) close_ok None).
  reflexivity.
Defined.

(** * Actions recorded by the engine *)

Section Actions.

Import RuleEngine.

Variable event_data : pyval.
Variable api_client : Suite.

Lemma loop_body_actions acc r :
  actions_taken (loop_results (loop_body event_data api_client acc r))
    = actions_taken (loop_results acc) ++ action_of r event_data api_client.
Proof.
  unfold action_of. pose proof (check_outcome r event_data api_client) as Ho.
  unfold check_passed, check_rule in *. unfold loop_body.
  destruct (MaxContractsRule.check r event_data api_client) as [[[passed r'] l] c].
  destruct passed; cbn [negb andb loop_results actions_taken].
  - now rewrite app_nil_r.
  - assert (Hc : MaxContractsRule.config r' = MaxContractsRule.config r).
    { destruct (negb (truthy _)); [discriminate Ho|].
      destruct (event_size event_data); [|discriminate Ho].
      destruct (int_gt _ _) as [[|]|]; try discriminate Ho.
      injection Ho as Hr. rewrite Hr. reflexivity. }
    rewrite Hc.
    destruct (truthy (MaxContractsRule.auto_flatten (MaxContractsRule.config r)));
      cbn; [reflexivity | now rewrite app_nil_r].
Qed.

Lemma loop_fold_actions rs : forall acc,
  actions_taken (loop_results (fold_left (loop_body event_data api_client) rs acc))
    = actions_taken (loop_results acc)
      ++ flat_map (fun r => action_of r event_data api_client) rs.
Proof.
  induction rs as [|r rs IH]; intros acc; cbn [fold_left flat_map].
  - now rewrite app_nil_r.
  - rewrite IH, loop_body_actions. now rewrite app_assoc.
Qed.

End Actions.

Section ActionsWithoutSuite.

Import RuleEngine.

Lemma no_suite_no_call r ev : check_calls r ev None = [].
Proof.
  destruct (check_calls_cases r ev None) as [H | (cid & close & _ & _ & _ & H)];
    [exact H | discriminate H].
Qed.

(** X22. [actions_taken] records intentions, not calls.  For an evaluable
    event the engine lists one "auto_flatten_attempted" for every rule that
    breaches with [auto_flatten] set, in rule order; when it was given no
    API client these entries are still listed although no close-position
    call is made at all. *)
Theorem actions_recorded_without_calls :
  forall (e : t) (event_type : string) (event_data : pyval) (api_client : Suite),
    event_type = "position_updated" \/ event_type = "order_filled" ->
    (let '(res, _, _, _) := process_event e event_type event_data api_client in
     actions_taken res = flat_map (fun r => action_of r event_data api_client) (rules e)) /\
    (let '(res, _, _, c) := process_event e event_type event_data None in
     actions_taken res = flat_map (fun r => action_of r event_data api_client) (rules e) /\
     c = []).
Proof.
  intros e event_type event_data api_client Hty.
  assert (Hk : risk_evaluable event_type = true) by (destruct Hty; subst; reflexivity).
  assert (Hact : forall api,
            let '(res, _, _, c) := process_event e event_type event_data api in
            actions_taken res = flat_map (fun r => action_of r event_data api) (rules e) /\
            c = flat_map (fun r => check_calls r event_data api) (rules e)).
  { intros api. unfold process_event. rewrite Hk. cbn [negb].
    rewrite loop_fold_actions, loop_fold_calls. cbn. auto. }
  split.
  - specialize (Hact api_client).
    destruct (process_event e event_type event_data api_client) as [[[res e'] l] c].
    exact (proj1 Hact).
  - specialize (Hact None).
    destruct (process_event e event_type event_data None) as [[[res e'] l] c].
    destruct Hact as (Ha & Hc). split.
    + rewrite Ha. clear. induction (rules e) as [|r rs IH]; [reflexivity|].
      cbn [flat_map]. rewrite IH. f_equal. unfold action_of.
      now rewrite (proj1 (check_verdict_ignores_mitigation_helper r event_data None api_client)).
    + rewrite Hc. clear. induction (rules e) as [|r rs IH]; [reflexivity|].
      cbn [flat_map]. now rewrite IH, no_suite_no_call.
Qed.

End ActionsWithoutSuite.

Lemma actions_recorded_without_calls_witness :
  let '(res, _, _, c) :=
    RuleEngine.process_event flattening_engine "position_updated"
      (sample_position_event 5) None in
  RuleEngine.actions_taken res
    = [RuleEngine.mkActionTaken "MaxContractsRule" "auto_flatten_attempted"] /\
  c = [].
Proof.
  exact (proj2 (actions_recorded_without_calls flattening_engine "position_updated"
                  (sample_position_event 5) None (or_introl eq_refl))).
Defined.
